(** * PakBeast: the text-diff and change-extraction core

    A shallow embedding of [comparison/operations/parsing.py],
    [comparison/operations/text_comparison.py], [utils.py] and [models.py].

    Conventions of the embedding.
    - A Python [str] is a [string]; a character is a code point below 256, so
      the character tables of [re] and of the [str] methods are the ones of
      that range.
    - A Python [int] is a [Z], [None] is the [None] of [option].
    - A [dict] is an association list in insertion order (the order in which
      [dict.items()] yields).
    - The parts of the Python library the comparator calls without defining
      them ([json], [difflib], the UTF-8 codec) are variables of a section. *)

From Stdlib Require Import String Ascii List ZArith Bool Lia Permutation.
Import ListNotations.
Open Scope string_scope.
Open Scope Z_scope.

Set Implicit Arguments.

(** ** Characters and the [str] methods used by the source *)

Module Str.

Definition code (c : ascii) : N := N_of_ascii c.

Definition LF : ascii := ascii_of_N 10.
Definition CR : ascii := ascii_of_N 13.

(** The line feed as a one-character text. *)
Definition NL : string := String LF EmptyString.

(** The double quote, as a character and as a one-character text. *)
Definition DQ : ascii := ascii_of_N 34.
Definition Q : string := String DQ EmptyString.

Definition between (lo hi : N) (c : ascii) : bool :=
  (N.leb lo (code c) && N.leb (code c) hi)%bool.

(** [str.isspace] and the class [\s]: tab to carriage return, the four
    separators 0x1c-0x1f, space, NEL and the no-break space. *)
Definition isspace (c : ascii) : bool :=
  (between 9 13 c || between 28 32 c
   || N.eqb (code c) 133 || N.eqb (code c) 160)%bool.

(** The class [\d]: the decimal digits of the range. *)
Definition isdigit (c : ascii) : bool := between 48 57 c.

(** The class [\w]: alphanumeric characters and the underscore. *)
Definition isword (c : ascii) : bool :=
  (between 48 57 c || between 65 90 c || between 97 122 c
   || N.eqb (code c) 95
   || N.eqb (code c) 170 || N.eqb (code c) 181 || N.eqb (code c) 186
   || between 178 179 c || N.eqb (code c) 185 || between 188 190 c
   || between 192 214 c || between 216 246 c || between 248 255 c)%bool.

(** The boundaries [str.splitlines] splits on. *)
Definition islinebreak (c : ascii) : bool :=
  (between 10 13 c || between 28 30 c || N.eqb (code c) 133)%bool.

Definition is_char (a : ascii) (c : ascii) : bool := Ascii.eqb a c.

Definition truthy (s : string) : bool :=
  match s with EmptyString => false | _ => true end.

Fixpoint startswith (p s : string) : bool :=
  match p with
  | EmptyString => true
  | String a p' =>
      match s with
      | String b s' => (Ascii.eqb a b && startswith p' s')%bool
      | EmptyString => false
      end
  end.

Fixpoint rev_acc (s acc : string) : string :=
  match s with
  | EmptyString => acc
  | String c s' => rev_acc s' (String c acc)
  end.

Definition rev (s : string) : string := rev_acc s EmptyString.

Definition endswith (p s : string) : bool := startswith (rev p) (rev s).

Fixpoint lstrip_by (p : ascii -> bool) (s : string) : string :=
  match s with
  | EmptyString => EmptyString
  | String c s' => if p c then lstrip_by p s' else s
  end.

Definition rstrip_by (p : ascii -> bool) (s : string) : string :=
  rev (lstrip_by p (rev s)).

(** [s.strip()] *)
Definition strip (s : string) : string := rstrip_by isspace (lstrip_by isspace s).

(** [s.rstrip(',')] *)
Definition rstrip_comma (s : string) : string := rstrip_by (is_char ",") s.

(** [s[1:]] *)
Definition tail (s : string) : string :=
  match s with EmptyString => EmptyString | String _ s' => s' end.

(** [s[1:-1]] *)
Definition slice_1_m1 (s : string) : string := rev (tail (rev (tail s))).

(** [sub in s] for a one-character [sub] *)
Fixpoint contains (a : ascii) (s : string) : bool :=
  match s with
  | EmptyString => false
  | String c s' => (Ascii.eqb a c || contains a s')%bool
  end.

(** [s.split(sep)] for a one-character separator: never the empty list. *)
Fixpoint split_go (sep : ascii) (cur : string) (s : string) : list string :=
  match s with
  | EmptyString => [rev cur]
  | String c s' =>
      if Ascii.eqb c sep then rev cur :: split_go sep EmptyString s'
      else split_go sep (String c cur) s'
  end.

Definition split (sep : ascii) (s : string) : list string :=
  split_go sep EmptyString s.

(** [s.splitlines()]: a line ends at each boundary, CR LF counts once, and the
    text after the last boundary is a line only when it is not empty. *)
Fixpoint splitlines_go (after_cr : bool) (cur : string) (s : string) : list string :=
  match s with
  | EmptyString => if truthy cur then [rev cur] else []
  | String c s' =>
      if (after_cr && Ascii.eqb c LF)%bool then splitlines_go false cur s'
      else if Ascii.eqb c CR then rev cur :: splitlines_go true EmptyString s'
      else if islinebreak c then rev cur :: splitlines_go false EmptyString s'
      else splitlines_go false (String c cur) s'
  end.

Definition splitlines (s : string) : list string :=
  splitlines_go false EmptyString s.

(** ["\n".join(xs)] *)
Fixpoint join_lf (xs : list string) : string :=
  match xs with
  | [] => EmptyString
  | [x] => x
  | x :: rest => x ++ String LF (join_lf rest)
  end.

(** [s.lower()] on the range: A-Z and the capital letters 0xC0-0xDE other
    than the multiplication sign. *)
Definition lower_char (c : ascii) : ascii :=
  if (between 65 90 c || (between 192 222 c && negb (N.eqb (code c) 215)))%bool
  then ascii_of_N (code c + 32) else c.

Fixpoint lower (s : string) : string :=
  match s with
  | EmptyString => EmptyString
  | String c s' => String (lower_char c) (lower s')
  end.

(** [int(s)] on a run of decimal digits. *)
Fixpoint int_go (acc : Z) (s : string) : Z :=
  match s with
  | EmptyString => acc
  | String c s' => int_go (10 * acc + (Z.of_N (code c) - 48)) s'
  end.

Definition int (s : string) : Z := int_go 0 s.

(** The first [n] characters. *)
Fixpoint take (n : nat) (s : string) : string :=
  match n, s with
  | S n', String c s' => String c (take n' s')
  | _, _ => EmptyString
  end.

End Str.

(** ** The fragment of Python's [re] the source uses

    A backtracking matcher in continuation-passing style: alternatives are
    tried left to right, a greedy repetition tries the longest run first and
    a lazy one the shortest, which is the order in which [re] explores them.
    Every repetition in the source's patterns is over a single character
    class, so a repetition recurses on the text. *)

Module Re.

Inductive regex : Type :=
| Eps
| Chr (p : ascii -> bool)
| Seq (r1 r2 : regex)
| Alt (r1 r2 : regex)
| Rep (greedy : bool) (min : nat) (p : ascii -> bool)
| Grp (n : nat) (r : regex)
| NegAhead (r : regex)
| Bol
| Eol
| WordB.

(** Where the matcher stands: the character before the position ([None] at
    the start of the text), the rest of the text and the groups so far. *)
Record pos : Type := mkpos {
  prev : option ascii;
  rest : string;
  caps : list (nat * string)
}.

Definition dot (c : ascii) : bool := negb (Ascii.eqb c Str.LF).
Definition chr_is (a : ascii) (c : ascii) : bool := Ascii.eqb a c.
Definition chr_isnot (a : ascii) (c : ascii) : bool := negb (Ascii.eqb a c).
Definition nonspace (c : ascii) : bool := negb (Str.isspace c).

Fixpoint lit (s : string) : regex :=
  match s with
  | EmptyString => Eps
  | String c s' => Seq (Chr (chr_is c)) (lit s')
  end.

Definition opt (r : regex) : regex := Alt r Eps.

Fixpoint seqs (rs : list regex) : regex :=
  match rs with
  | [] => Eps
  | r :: rs' => Seq r (seqs rs')
  end.

Section Matcher.
Variable A : Type.

(** [p{min,}] from the position ([pv], [s]); [k] continues after the run. *)
Fixpoint rep (greedy : bool) (p : ascii -> bool) (min : nat)
    (pv : option ascii) (s : string)
    (k : option ascii -> string -> option A) : option A :=
  let stop := match min with O => k pv s | S _ => None end in
  match s with
  | EmptyString => stop
  | String c s' =>
      if p c then
        if greedy then
          match rep greedy p (Nat.pred min) (Some c) s' k with
          | Some x => Some x
          | None => stop
          end
        else
          match stop with
          | Some x => Some x
          | None => rep greedy p (Nat.pred min) (Some c) s' k
          end
      else stop
  end.

Definition word_at (o : option ascii) : bool :=
  match o with Some c => Str.isword c | None => false end.

Definition next_char (s : string) : option ascii :=
  match s with EmptyString => None | String c _ => Some c end.

Definition matched (start stop : string) : string :=
  Str.take (String.length start - String.length stop) start.

Definition set_cap (n : nat) (v : string) (cs : list (nat * string)) :=
  (n, v) :: filter (fun e => negb (Nat.eqb (fst e) n)) cs.

End Matcher.

Fixpoint run (A : Type) (r : regex) (st : pos) (k : pos -> option A) : option A :=
  match r with
  | Eps => k st
  | Chr p =>
      match rest st with
      | String c s' => if p c then k (mkpos (Some c) s' (caps st)) else None
      | EmptyString => None
      end
  | Seq r1 r2 => run r1 st (fun st' => run r2 st' k)
  | Alt r1 r2 =>
      match run r1 st k with
      | Some x => Some x
      | None => run r2 st k
      end
  | Rep greedy min p =>
      rep greedy p min (prev st) (rest st)
          (fun pv s => k (mkpos pv s (caps st)))
  | Grp n r1 =>
      run r1 st (fun st' =>
        k (mkpos (prev st') (rest st')
                 (set_cap n (matched (rest st) (rest st')) (caps st'))))
  | NegAhead r1 =>
      match run r1 st (fun st' => Some st') with
      | Some _ => None
      | None => k st
      end
  | Bol => match prev st with None => k st | Some _ => None end
  | Eol =>
      match rest st with
      | EmptyString => k st
      | String c EmptyString => if Ascii.eqb c Str.LF then k st else None
      | _ => None
      end
  | WordB =>
      if xorb (word_at (prev st)) (word_at (next_char (rest st)))
      then k st else None
  end.

(** [pattern.search(text)]: the match at the leftmost position that has one. *)
Fixpoint search_from (r : regex) (pv : option ascii) (s : string)
    : option (list (nat * string)) :=
  match run r (mkpos pv s []) (fun st => Some (caps st)) with
  | Some cs => Some cs
  | None =>
      match s with
      | EmptyString => None
      | String c s' => search_from r (Some c) s'
      end
  end.

Definition search (r : regex) (s : string) : option (list (nat * string)) :=
  search_from r None s.

(** [m.group(n)] for a group that took part in the match. *)
Fixpoint group (n : nat) (cs : list (nat * string)) : option string :=
  match cs with
  | [] => None
  | (i, v) :: cs' => if Nat.eqb i n then Some v else group n cs'
  end.

Definition group_str (n : nat) (cs : list (nat * string)) : string :=
  match group n cs with Some v => v | None => EmptyString end.

End Re.

(** ** [comparison/operations/parsing.py] *)

Module Parsing.
Import Str Re.

Definition digits : regex := Rep true 1 isdigit.
Definition spaces : regex := Rep true 0 isspace.

(** [r'@@ -(\d+)(?:,(\d+))? \+(\d+)(?:,(\d+))? @@'] *)
Definition hunk_re : regex :=
  seqs [lit "@@ -"; Grp 1 digits; opt (Seq (lit ",") (Grp 2 digits));
        lit " +"; Grp 3 digits; opt (Seq (lit ",") (Grp 4 digits));
        lit " @@"].

(** [r'Param\(Q([^Q]+)Q,\s*(Q.*?Q|\S+)\)\s*;'], writing Q for the double
    quote. *)
Definition param_re : regex :=
  seqs [lit "Param("; Chr (chr_is DQ); Grp 1 (Rep true 1 (chr_isnot DQ));
        Chr (chr_is DQ); lit ","; spaces;
        Grp 2 (Alt (seqs [Chr (chr_is DQ); Rep false 0 dot; Chr (chr_is DQ)])
                   (Rep true 1 nonspace));
        lit ")"; spaces; lit ";"].

(** [r'^\s*(?!Param\b)(\w+)\s*\((.*?)\)\s*(?:;|\{)'] *)
Definition prop_re : regex :=
  seqs [Bol; spaces; NegAhead (Seq (lit "Param") WordB);
        Grp 1 (Rep true 1 isword); spaces; lit "(";
        Grp 2 (Rep false 0 dot); lit ")"; spaces;
        Alt (lit ";") (lit "{")].

Definition ini_key_char (c : ascii) : bool :=
  negb (Ascii.eqb c "=" || Ascii.eqb c "#" || Ascii.eqb c "[" || isspace c)%bool.

(** [r'^\s*([^=#\[\s]+?)\s*=\s*(.+?)\s*$'] *)
Definition ini_kv_re : regex :=
  seqs [Bol; spaces; Grp 1 (Rep false 1 ini_key_char); spaces; lit "=";
        spaces; Grp 2 (Rep false 1 dot); spaces; Eol].

(** [r'^\s*Q([^Q]+)Q:\s*(.+?)\s*,?\s*$'], writing Q for the double quote. *)
Definition json_kv_re : regex :=
  seqs [Bol; spaces; Chr (chr_is DQ); Grp 1 (Rep true 1 (chr_isnot DQ));
        Chr (chr_is DQ); lit ":"; spaces; Grp 2 (Rep false 1 dot); spaces;
        opt (lit ","); spaces; Eol].

(** [if value.startswith(Q) and value.endswith(Q): value = value[1:-1]],
    writing Q for the double quote. *)
Definition unquote (value : string) : string :=
  if (startswith Q value && endswith Q value)%bool
  then slice_1_m1 value else value.

(** *** Dictionaries in insertion order *)

Definition dict : Type := list (string * string).

Fixpoint dict_get (d : dict) (k : string) : option string :=
  match d with
  | [] => None
  | (k', v) :: d' => if String.eqb k' k then Some v else dict_get d' k
  end.

(** [d[k] = v]: a key already present keeps its place. *)
Fixpoint dict_set (d : dict) (k v : string) : dict :=
  match d with
  | [] => [(k, v)]
  | (k', v') :: d' =>
      if String.eqb k' k then (k', v) :: d' else (k', v') :: dict_set d' k v
  end.

(** The body of the loop of [_parse_params] on one line: the entry the line
    stores, if any. *)
Definition parse_line (line : string) : option (string * string) :=
  match search param_re line with
  | Some m => Some (group_str 1 m, unquote (strip (group_str 2 m)))
  | None =>
      match search prop_re line with
      | Some m => Some (group_str 1 m, unquote (strip (group_str 2 m)))
      | None => None
      end
  end.

Definition parse_step (result : dict) (line : string) : dict :=
  match parse_line line with
  | Some (name, value) => dict_set result name value
  | None => result
  end.

Definition _parse_params (lines : list string) : dict :=
  fold_left parse_step lines [].

(** *** [_extract_changed_lines] *)

(** [(old_line, new_line, old_line_num, new_line_num)] *)
Definition change : Type :=
  (option string * option string * option Z * option Z)%type.

Record xstate : Type := mkx {
  changes : list change;
  old_line_num : option Z;
  new_line_num : option Z;
  last_was_minus : bool;
  last_minus_content : option string;
  last_minus_line_num : option Z
}.

Definition init : xstate := mkx [] None None false None None.

(** [last_was_minus and last_minus_content is not None and
    last_minus_line_num is not None], with the two values when it holds. *)
Definition pending (st : xstate) : option (string * Z) :=
  if last_was_minus st then
    match last_minus_content st, last_minus_line_num st with
    | Some c, Some n => Some (c, n)
    | _, _ => None
    end
  else None.

Definition incr (n : option Z) : option Z := option_map (fun x => x + 1) n.

(** The line numbers a hunk header sets. *)
Definition hunk_start (line : string) : option (Z * Z) :=
  match search hunk_re line with
  | Some m =>
      let old_start := int (group_str 1 m) in
      let new_start := int (group_str 3 m) in
      if ((old_start >? 0) && (new_start >? 0)
          && (old_start <=? 100000000) && (new_start <=? 100000000))%bool
      then Some (old_start, new_start)
      else None
  | None => None
  end.

Definition is_minus (line : string) : bool :=
  (startswith "-" line && negb (startswith "--" line))%bool.

Definition is_plus (line : string) : bool :=
  (startswith "+" line && negb (startswith "++" line))%bool.

(** One turn of the loop over the lines of the diff. *)
Definition step (st : xstate) (line : string) : xstate :=
  if startswith "@@" line then
    mkx (changes st)
        (option_map fst (hunk_start line)) (option_map snd (hunk_start line))
        false None None
  else if (startswith "---" line || startswith "+++" line)%bool then st
  else if negb (truthy line) then st
  else if is_minus line then
    let content := tail line in
    match old_line_num st with
    | Some n =>
        mkx (changes st) (Some (n + 1)) (new_line_num st)
            true (Some content) (Some n)
    | None => st
    end
  else if is_plus line then
    let content := tail line in
    match pending st with
    | Some (c, n) =>
        mkx (changes st ++ [(Some c, Some content, Some n, new_line_num st)])
            (old_line_num st) (incr (new_line_num st)) false None None
    | None =>
        mkx (changes st ++ [(None, Some content, None, new_line_num st)])
            (old_line_num st) (incr (new_line_num st))
            (last_was_minus st) (last_minus_content st) (last_minus_line_num st)
    end
  else
    match pending st with
    | Some (c, n) =>
        mkx (changes st ++ [(Some c, None, Some n, None)])
            (incr (old_line_num st)) (incr (new_line_num st)) false None None
    | None =>
        mkx (changes st) (incr (old_line_num st)) (incr (new_line_num st))
            (last_was_minus st) (last_minus_content st) (last_minus_line_num st)
    end.

(** The flush after the loop. *)
Definition finish (st : xstate) : list change :=
  match pending st with
  | Some (c, n) => changes st ++ [(Some c, None, Some n, None)]
  | None => changes st
  end.

Definition extract_lines (lines : list string) : list change :=
  finish (fold_left step lines init).

Definition _extract_changed_lines (diff_str : string) : list change :=
  extract_lines (splitlines diff_str).

(** *** [_extract_json_key_changes] and [_extract_param_changes_from_diff] *)

(** [(name, old_value, new_value)] *)
Definition triple : Type := (string * string * string)%type.

(** A name and its value, [None] for the pair [(None, None)]. *)
Definition binding : Type := option (string * string).

Definition name_of (b : binding) : string :=
  match b with Some (k, _) => k | None => EmptyString end.

Definition value_of (b : binding) : string :=
  match b with Some (_, v) => v | None => EmptyString end.

(** The truth value of the name: it is neither [None] nor empty. *)
Definition named (b : binding) : bool :=
  match b with Some (k, _) => truthy k | None => false end.

Definition opt_string_eqb (a b : option string) : bool :=
  match a, b with
  | Some x, Some y => String.eqb x y
  | None, None => true
  | _, _ => false
  end.

(** The [if]/[elif]/[elif] that ends both loops. *)
Definition classify (o n : binding) : list triple :=
  if (named o && named n && String.eqb (name_of o) (name_of n)
      && negb (opt_string_eqb (option_map snd o) (option_map snd n)))%bool
  then [(name_of o, value_of o, value_of n)]
  else if (named n && negb (named o))%bool
  then [(name_of n, EmptyString, value_of n)]
  else if (named o && negb (named n))%bool
  then [(name_of o, value_of o, EmptyString)]
  else [].

(** [if line: ... else (None, None)] for a side that may be [None]. *)
Definition on_side (f : string -> binding) (line : option string) : binding :=
  match line with
  | Some l => if truthy l then f l else None
  | None => None
  end.

Definition json_kv_from_line (line : string) : binding :=
  match search json_kv_re line with
  | Some m =>
      Some (group_str 1 m,
            unquote (strip (rstrip_comma (strip (group_str 2 m)))))
  | None => None
  end.

Definition _extract_json_key_changes (changed_lines : list change) : list triple :=
  flat_map (fun ch : change =>
    let '(old_line, new_line, _, _) := ch in
    classify (on_side json_kv_from_line old_line)
             (on_side json_kv_from_line new_line)) changed_lines.

(** [parts[-1]] of a list that is not empty. *)
Definition last_part (parts : list string) : string := last parts EmptyString.

(** The multi-argument rule of the function-call case. *)
Definition last_argument (value : string) : string :=
  if contains "," value then
    match map strip (split "," value) with
    | [] => value
    | parts => strip (last_part parts)
    end
  else value.

Definition extract_param_from_line (line : string) : binding :=
  if negb (truthy line) then None else
  match search param_re line with
  | Some m => Some (group_str 1 m, unquote (strip (group_str 2 m)))
  | None =>
      match search prop_re line with
      | Some m =>
          Some (group_str 1 m, unquote (last_argument (strip (group_str 2 m))))
      | None =>
          match search ini_kv_re line with
          | Some m =>
              Some (strip (group_str 1 m), unquote (strip (group_str 2 m)))
          | None => None
          end
      end
  end.

Definition _extract_param_changes_from_diff
    (changed_lines : list change) (is_json : bool) : list triple :=
  if is_json then _extract_json_key_changes changed_lines else
  flat_map (fun ch : change =>
    let '(old_line, new_line, _, _) := ch in
    classify (on_side extract_param_from_line old_line)
             (on_side extract_param_from_line new_line)) changed_lines.

End Parsing.

(** ** [comparison/operations/models.py] *)

Module Models.
Import Parsing.

(** The four values the comment on the field [kind] lists. *)
Inductive kind : Type :=
| added
| removed
| modified_binary
| modified_text.

Record FileDiff : Type := mkFileDiff {
  path : string;
  fd_kind : kind;
  diff : option string;
  param_changes : option (list triple);
  diff_truncated : bool;
  changed_lines : option (list change)
}.

End Models.

(** ** [comparison/operations/utils.py] and [text_comparison.py] *)

Module TextComparison.
Import Str Parsing Models.

Definition bytes : Type := list Byte.byte.

(** What a call gives back: a value, or an exception that leaves it. *)
Inductive outcome (A : Type) : Type :=
| Return (a : A)
| Raise (e : string).
Arguments Return {A} a.
Arguments Raise {A} e.

(** A [pathlib.Path], by the two attributes the comparator reads. *)
Record Path : Type := mkPath {
  name : string;
  suffix : string
}.

(** [x or None] for a list. *)
Definition or_none (A : Type) (l : list A) : option (list A) :=
  match l with [] => None | _ => Some l end.

(** The truth value of an optional text: present and not empty. *)
Definition truthy_opt (o : option string) : bool :=
  match o with Some s => truthy s | None => false end.

Definition bytes_eqb (a b : bytes) : bool :=
  if list_eq_dec Byte.byte_eq_dec a b then true else false.

Definition len (b : bytes) : Z := Z.of_nat (length b).

Section Comparator.

(** The file system: [open(p, "rb").read()], [None] when [open] fails with
    [IOError] or [OSError]. *)
Variable read_file : Path -> option bytes.

(** [data.decode("utf-8")], [None] on [UnicodeDecodeError], and
    [data.decode("utf-8", errors="replace")]. *)
Variable utf8_decode : bytes -> option string.
Variable utf8_decode_replace : bytes -> string.

(** [json.loads], [None] when it raises one of the exceptions the source
    catches, and [json.dumps] with its [indent], [sort_keys] and
    [ensure_ascii] arguments. *)
Variable json_value : Type.
Variable json_loads : string -> option json_value.
Variable json_dumps : json_value -> Z -> bool -> bool -> string.

(** [difflib.unified_diff(a, b, fromfile, tofile, n)], as the list of the
    lines it yields. *)
Variable unified_diff :
  list string -> list string -> string -> string -> Z -> list string.

Definition _is_text (data : bytes) : bool :=
  if existsb (Byte.eqb Byte.x00) data then false
  else match utf8_decode data with Some _ => true | None => false end.

Definition _decode_text (data : bytes) : string := utf8_decode_replace data.

Definition _normalize_json (content : string) : option string :=
  match json_loads content with
  | Some json_data => Some (json_dumps json_data 2 true false)
  | None => None
  end.

Definition json_suffixes : list string := [".json"; ".gui"; ".cfg"].

Definition in_suffixes (s : string) : bool :=
  existsb (String.eqb s) json_suffixes.

(** The texts to compare and the JSON flag, after the extension test. *)
Definition normalized_pair (original_path : Path) (orig_content mod_content : string)
    : string * string * bool :=
  if in_suffixes (lower (suffix original_path)) then
    let normalized_orig := _normalize_json orig_content in
    let normalized_mod := _normalize_json mod_content in
    match normalized_orig, normalized_mod with
    | Some no, Some nm =>
        if (truthy no && truthy nm)%bool then (no, nm, true)
        else (orig_content, mod_content, false)
    | _, _ => (orig_content, mod_content, false)
    end
  else (orig_content, mod_content, false).

(** The loop of the fallback over [orig_params.items()]. *)
Definition fallback_changes (orig_params mod_params : dict) : list triple :=
  flat_map (fun e : string * string =>
    let (nm, old_val) := e in
    match dict_get mod_params nm with
    | Some v => if negb (String.eqb v old_val) then [(nm, old_val, v)] else []
    | None => []
    end) orig_params.

Definition compare_plain_text_files
    (original_path modded_path : Path) (context : Z)
    (include_diff : bool) (max_text_bytes : Z) : outcome (list FileDiff) :=
  match read_file original_path with
  | None => Return []
  | Some orig_bytes =>
    match read_file modded_path with
    | None =>
        if _is_text orig_bytes then
          Return [mkFileDiff (name original_path) removed None None false None]
        else Return []
    | Some mod_bytes =>
      if bytes_eqb orig_bytes mod_bytes then Return [] else
      if (_is_text orig_bytes && _is_text mod_bytes)%bool then
        let '(orig_content, mod_content, is_json) :=
          normalized_pair original_path
            (_decode_text orig_bytes) (_decode_text mod_bytes) in
        let orig_text := splitlines orig_content in
        let mod_text := splitlines mod_content in
        if include_diff then
          if ((len orig_bytes <=? max_text_bytes)
              && (len mod_bytes <=? max_text_bytes))%bool then
            let diff_lines :=
              unified_diff orig_text mod_text
                ("original/" ++ name original_path)
                ("modded/" ++ name modded_path) context in
            let diff_str := join_lf diff_lines in
            let changed := _extract_changed_lines diff_str in
            let params :=
              match changed with
              | [] => []
              | _ => _extract_param_changes_from_diff changed is_json
              end in
            Return [mkFileDiff (name original_path) modified_text
                      (Some diff_str) (or_none params) false (Some changed)]
          else
            let orig_params := _parse_params orig_text in
            let mod_params := _parse_params mod_text in
            let params := fallback_changes orig_params mod_params in
            Return [mkFileDiff (name original_path) modified_text
                      None (or_none params) true None]
        else
          Return [mkFileDiff (name original_path) modified_text
                    None None false None]
      else
        Return [mkFileDiff (name original_path) modified_binary
                  None None false None]
    end
  end.

End Comparator.

End TextComparison.

(** ** [comparison/operations/comparison_runner.py] *)

Module Runner.
Import Str Parsing Models TextComparison.

(** A result with the two attributes the worker sets on it. *)
Record Stored : Type := mkStored {
  result : FileDiff;
  original_file : Path;
  modded_file : Path
}.

(** The dictionary [summary], by its four keys. *)
Record Summary : Type := mkSummary {
  n_added : nat;
  n_removed : nat;
  n_modified_text : nat;
  n_modified_binary : nat
}.

(** What the worker hands to [app.after]: one of the two callbacks with its
    arguments. *)
Inductive posted : Type :=
| on_complete (file_comparisons : list Stored) (summary : Summary)
| on_error (message : string).

Definition kind_eqb (a b : kind) : bool :=
  match a, b with
  | added, added => true
  | removed, removed => true
  | modified_binary, modified_binary => true
  | modified_text, modified_text => true
  | _, _ => false
  end.

(** [len([d for d in file_comparisons if d.kind == k])] *)
Definition count_kind (k : kind) (file_comparisons : list FileDiff) : nat :=
  length (filter (fun d => kind_eqb (fd_kind d) k) file_comparisons).

Section Worker.

Variable read_file : Path -> option bytes.
Variable utf8_decode : bytes -> option string.
Variable utf8_decode_replace : bytes -> string.
Variable json_value : Type.
Variable json_loads : string -> option json_value.
Variable json_dumps : json_value -> Z -> bool -> bool -> string.
Variable unified_diff :
  list string -> list string -> string -> string -> Z -> list string.

(** The body of [worker] in [run_comparison]; the thread it runs in and the
    scheduling of the callback are left out. *)
Definition worker (original_path modded_path : Path) (context : Z) : posted :=
  match compare_plain_text_files read_file utf8_decode utf8_decode_replace
          json_loads json_dumps unified_diff
          original_path modded_path context true 1000000 with
  | Return file_comparisons =>
      on_complete
        (map (fun c => mkStored c original_path modded_path) file_comparisons)
        (mkSummary (count_kind added file_comparisons)
                   (count_kind removed file_comparisons)
                   (count_kind modified_text file_comparisons)
                   (count_kind modified_binary file_comparisons))
  | Raise e => on_error e
  end.

End Worker.

End Runner.

(** ** [logic/scanner.py]: [find_block_bounds] *)

Module Scanner.
Import Str TextComparison.

(** [line.count(c)] for a one-character [c]. *)
Fixpoint count_char (a : ascii) (s : string) : Z :=
  match s with
  | EmptyString => 0
  | String c s' => (if Ascii.eqb a c then 1 else 0) + count_char a s'
  end.

(** [lines[i]]: an index below 0 counts from the end, and [None] stands for
    the [IndexError] of an index out of range. *)
Definition index (lines : list string) (i : Z) : option string :=
  let n := Z.of_nat (length lines) in
  if 0 <=? i then nth_error lines (Z.to_nat i)
  else if - n <=? i then nth_error lines (Z.to_nat (n + i))
  else None.

(** The loop over [range(start_ln, len(lines))], [fuel] being the number of
    indices left. *)
Fixpoint bounds_loop (lines : list string) (fuel : nat) (i : Z)
    (brace_depth : Z) (has_opened : bool) : outcome Z :=
  match fuel with
  | O => Return (-1)
  | S fuel' =>
      match index lines i with
      | None => Raise "IndexError"
      | Some line_content =>
          let has_opened' := (contains "{" line_content || has_opened)%bool in
          let opened_depth :=
            if contains "{" line_content
            then brace_depth + count_char "{" line_content
            else brace_depth in
          let brace_depth' := opened_depth - count_char "}" line_content in
          if (has_opened' && (brace_depth' <=? 0))%bool then Return i
          else bounds_loop lines fuel' (i + 1) brace_depth' has_opened'
      end
  end.

Definition find_block_bounds (lines : list string) (start_ln : Z) : outcome Z :=
  bounds_loop lines (Z.to_nat (Z.of_nat (length lines) - start_ln)) start_ln
              0 false.

End Scanner.

(** * The notions the properties are stated with *)

Module Notions.
Import Str Re Parsing Models TextComparison.

#[local] Open Scope list_scope.

(** *** Tuples, lines and states of the extractor *)

(** The old-side and the new-side contents of the tuples, in order. *)
Definition old_side (cs : list change) : list string :=
  flat_map (fun ch : change =>
    match ch with (Some o, _, _, _) => [o] | _ => [] end) cs.

Definition new_side (cs : list change) : list string :=
  flat_map (fun ch : change =>
    match ch with (_, Some n, _, _) => [n] | _ => [] end) cs.

(** The body lines of a diff text that carry a [-]: the lines with that
    prefix other than the file header. *)
Definition minus_body (l : string) : bool :=
  (startswith "-" l && negb (startswith "---" l))%bool.

Definition contents (f : string -> bool) (lines : list string) : list string :=
  map tail (filter f lines).

(** The run of the loop from a state. *)
Definition run_lines (st : xstate) (lines : list string) : xstate :=
  fold_left step lines st.

(** How the loop sees a line. *)
Inductive line_kind : Type :=
| Hunk
| Skipped
| Minus
| Plus
| Context.

Definition kind_of (l : string) : line_kind :=
  if startswith "@@" l then Hunk
  else if (startswith "---" l || startswith "+++" l)%bool then Skipped
  else if negb (truthy l) then Skipped
  else if is_minus l then Minus
  else if is_plus l then Plus
  else Context.

(** A list made of elements of another, in its order, each used once. *)
Inductive sublist (A : Type) : list A -> list A -> Prop :=
| sub_nil : sublist [] []
| sub_skip (x : A) (a m : list A) : sublist a m -> sublist a (x :: m)
| sub_keep (x : A) (a m : list A) : sublist a m -> sublist (x :: a) (x :: m).

(** The removal the loop still holds, as a list. *)
Definition held (st : xstate) : list string :=
  match pending st with Some (c, _) => [c] | None => [] end.

Definition is_some (A : Type) (o : option A) : bool :=
  match o with Some _ => true | None => false end.

(** A diff in which every [-] line lies under a hunk header whose start
    lines the loop accepts and is directly followed, blank lines and file
    headers apart, by a [+] line, a context line or the end of the text.
    [tracked] says that the line counters are set, [holding] that the line
    before was a [-] line. *)
Fixpoint clean (tracked holding : bool) (lines : list string) : bool :=
  match lines with
  | [] => true
  | l :: rest =>
      match kind_of l with
      | Hunk => negb holding && clean (is_some (hunk_start l)) false rest
      | Skipped => clean tracked holding rest
      | Minus => tracked && negb holding && clean tracked true rest
      | Plus => clean tracked false rest
      | Context => clean tracked false rest
      end
  end%bool.

(** The state with tuples put before its own. *)
Definition prepend (cs : list change) (st : xstate) : xstate :=
  mkx (cs ++ changes st) (old_line_num st) (new_line_num st)
      (last_was_minus st) (last_minus_content st) (last_minus_line_num st).

(** A tuple with an old line or a new line. *)
Definition has_side (ch : change) : Prop :=
  match ch with
  | (None, None, _, _) => False
  | _ => True
  end.

(** The header does not parse, or one of its start lines is not positive
    or is above 100,000,000. *)
Definition bad_header (h : string) : Prop :=
  match search hunk_re h with
  | None => True
  | Some m =>
      int (group_str 1 m) <= 0 \/ int (group_str 3 m) <= 0 \/
      int (group_str 1 m) > 100000000 \/ int (group_str 3 m) > 100000000
  end.

(** The unpaired addition without line numbers. *)
Definition null_addition (content : string) : change :=
  (None, Some content, None, None).

(** The state in which both counters are null and nothing is held. *)
Definition untracked (st : xstate) : Prop :=
  old_line_num st = None /\ new_line_num st = None /\ pending st = None.

(** A text that ends here or goes on with a hunk header. *)
Definition at_boundary (post : list string) : Prop :=
  match post with
  | [] => True
  | h :: _ => startswith "@@" h = true
  end.

(** *** Diff texts and lines to run the extractor and the parsers on *)

(** What [difflib] yields, joined by line feeds, for a one-line file [x]
    made empty: the three header lines end in a line feed of their own. *)
Definition diff_emptied : string :=
  join_lf ["--- original/f.txt" ++ NL; "+++ modded/f.txt" ++ NL;
           "@@ -1 +0,0 @@" ++ NL; "-x"]%string.

(** A hunk that replaces the two lines [a], [b] by the line [c]. *)
Definition diff_two_for_one : string :=
  join_lf ["--- original/f.txt" ++ NL; "+++ modded/f.txt" ++ NL;
           "@@ -1,2 +1 @@" ++ NL; "-a"; "-b"; "+c"]%string.

(** A hunk that replaces one line between two lines of context. *)
Definition diff_one_for_one : string :=
  join_lf ["--- original/f.txt" ++ NL; "+++ modded/f.txt" ++ NL;
           "@@ -1,3 +1,3 @@" ++ NL; " a"; "-b"; "+c"; " d"]%string.

(** The text of the arguments of a function call, stripped. *)
Definition argument_text (m : list (nat * string)) : string :=
  strip (group_str 2 m).

(** The docstring's own example of a call with two arguments. *)
Definition bone_line : string :=
  ("bone(" ++ Q ++ "PELVIS" ++ Q ++ ", " ++ Q ++ "Pelvis" ++ Q ++ ");")%string.

(** *** The whole-file maps *)

(** The value the last line that stores the name [n] stores for it. *)
Definition last_value (lines : list string) (n : string) : option string :=
  fold_left (fun acc line =>
    match parse_line line with
    | Some (k, v) => if String.eqb k n then Some v else acc
    | None => acc
    end) lines None.

Definition keys (d : dict) : list string := map fst d.

(** *** A library to run the comparator on ASCII files *)

Definition ascii_byte (b : Byte.byte) : bool := N.ltb (Byte.to_N b) 128.

(** The UTF-8 codec on data that is ASCII throughout. *)
Definition decode_ascii (data : bytes) : option string :=
  if forallb ascii_byte data
  then Some (string_of_list_byte data) else None.

Definition decode_ascii_replace (data : bytes) : string :=
  string_of_list_byte data.

(** A file system with the two files [old.txt] and [new.txt]. *)
Definition two_files (o m : string) (p : Path) : option bytes :=
  if String.eqb (name p) "old.txt" then Some (list_byte_of_string o)
  else if String.eqb (name p) "new.txt" then Some (list_byte_of_string m)
  else None.

Definition old_txt : Path := mkPath "old.txt" ".txt".
Definition new_txt : Path := mkPath "new.txt" ".txt".
Definition gone_txt : Path := mkPath "gone.txt" ".txt".

(** A [json] that parses nothing and a [difflib] that is never reached. *)
Definition no_json (_ : string) : option unit := None.
Definition dumps_unit (_ : unit) (_ : Z) (_ _ : bool) : string := "null".
Definition no_diff (_ _ : list string) (_ _ : string) (_ : Z) : list string := [].

Definition run_on (o m : string) (original modded : Path)
    (include_diff : bool) (max_text_bytes : Z) : outcome (list FileDiff) :=
  compare_plain_text_files (two_files o m) decode_ascii decode_ascii_replace
    no_json dumps_unit no_diff original modded 1 include_diff max_text_bytes.

(** A [json] that knows the two texts [[1]] and [[2]] and writes a one-number
    array the way [json.dumps] does with [indent=2], and a [difflib] that
    yields the lines it is given, old before new. *)
Definition toy_loads (s : string) : option Z :=
  if String.eqb s "[1]" then Some 1
  else if String.eqb s "[2]" then Some 2 else None.

Definition toy_dumps (j : Z) (_ : Z) (_ _ : bool) : string :=
  ("[" ++ NL ++ "  " ++ (if Z.eqb j 1 then "1" else "2") ++ NL ++ "]")%string.

Definition echo_diff (a b : list string) (_ _ : string) (_ : Z) : list string :=
  a ++ b.

Definition DATA_JSON : Path := mkPath "DATA.JSON" ".JSON".
Definition data_json : Path := mkPath "data.json" ".json".

Definition json_files (p : Path) : option bytes :=
  if String.eqb (lower (name p)) "data.json"
  then Some (list_byte_of_string "[1]")
  else Some (list_byte_of_string "[2]").

Definition run_json (original : Path) : outcome (list FileDiff) :=
  compare_plain_text_files json_files decode_ascii decode_ascii_replace
    toy_loads toy_dumps echo_diff original new_txt 1 true 1000.

(** *** The scenario of one changed value *)

(** A text without a line boundary in it. *)
Fixpoint nobreak (s : string) : bool :=
  match s with
  | EmptyString => true
  | String c s' => (negb (islinebreak c) && nobreak s')%bool
  end.

(** A line of a hunk that stands for an unchanged line. *)
Definition context_line (l : string) : Prop :=
  startswith " " l = true /\ nobreak l = true.

(** A line [splitlines] gives back as it is. *)
Definition plain_line (l : string) : Prop :=
  truthy l = true /\ nobreak l = true.

Definition advance (k : Z) (n : option Z) : option Z :=
  option_map (fun x => x + k) n.

(** The two lines of the scenario. *)
Definition old_l : string := ("Param(" ++ Q ++ "Health" ++ Q ++ ", 100);")%string.
Definition new_l : string := ("Param(" ++ Q ++ "Health" ++ Q ++ ", 150);")%string.

(** The diff text of one hunk that replaces [old_l] by [new_l]: the three
    header lines as [difflib] yields them, then the context before, the two
    changed lines and the context after, joined by line feeds. *)
Definition scenario_diff (h1 h2 h : string) (before after : list string) : string :=
  join_lf ((h1 ++ NL)%string :: (h2 ++ NL)%string :: (h ++ NL)%string
           :: before ++ [("-" ++ old_l)%string; ("+" ++ new_l)%string] ++ after).

(** The texts the comparator diffs and the mode it extracts in, for a given
    [json]. *)
Definition compared (json_value : Type)
    (json_loads : string -> option json_value)
    (json_dumps : json_value -> Z -> bool -> bool -> string)
    (original : Path) (oc mc : string) : string * string * bool :=
  match in_suffixes (lower (suffix original)),
        _normalize_json json_loads json_dumps oc,
        _normalize_json json_loads json_dumps mc with
  | true, Some x, Some y => (x, y, true)
  | _, _, _ => (oc, mc, false)
  end.

(** *** More on the tuples and the lines of the extractor *)

(** The three forms of a tuple: a pair, an addition, a removal. *)
Definition well_shaped (ch : change) : Prop :=
  match ch with
  | (Some _, Some _, Some _, _) => True
  | (None, Some _, None, _) => True
  | (Some _, None, Some _, None) => True
  | _ => False
  end.

(** A line number that is there is at least 1. *)
Definition positive (n : option Z) : Prop :=
  match n with Some k => 1 <= k | None => True end.

Definition numbers_positive (ch : change) : Prop :=
  match ch with (_, _, a, b) => positive a /\ positive b end.

(** The tuples, the counters and the held line number of a state are
    positive. *)
Definition state_positive (st : xstate) : Prop :=
  Forall numbers_positive (changes st) /\
  positive (old_line_num st) /\ positive (new_line_num st) /\
  positive (last_minus_line_num st).

(** The lines the loop passes over: the file headers and the empty lines. *)
Definition skipped (l : string) : bool :=
  (startswith "---" l || startswith "+++" l || negb (truthy l))%bool.

(** The lines that stand for a line of the old file, and of the new file. *)
Definition consumes_old (l : string) : bool :=
  match kind_of l with Context | Minus => true | _ => false end.

Definition consumes_new (l : string) : bool :=
  match kind_of l with Context | Plus => true | _ => false end.

Definition count_lines (f : string -> bool) (ls : list string) : Z :=
  Z.of_nat (length (filter f ls)).

(** The removal that is flushed, if one is held. *)
Definition flushed (st : xstate) : list change :=
  match pending st with
  | Some (c, n) => [(Some c, None, Some n, None)]
  | None => []
  end.

(** *** Blocks of braces *)

(** A run of lines has an opening brace in it. *)
Definition opened_in (seg : list string) : bool :=
  existsb (contains "{") seg.

(** The opening braces of a run of lines less its closing braces. *)
Fixpoint depth_of (seg : list string) : Z :=
  match seg with
  | [] => 0
  | l :: seg' =>
      Scanner.count_char "{" l - Scanner.count_char "}" l + depth_of seg'
  end.

(** A run of lines that opens a brace and closes all it opens. *)
Definition closes (seg : list string) : bool :=
  (opened_in seg && (depth_of seg <=? 0))%bool.

(** The lines from the index [start_ln] to the index [j], both included. *)
Definition segment (lines : list string) (start_ln j : Z) : list string :=
  firstn (Z.to_nat (j + 1 - start_ln)) (skipn (Z.to_nat start_ln) lines).

(** The loop of [find_block_bounds] on the lines that are left. *)
Fixpoint scan (rest : list string) (i brace_depth : Z) (has_opened : bool) : Z :=
  match rest with
  | [] => -1
  | l :: rest' =>
      let has_opened' := (contains "{" l || has_opened)%bool in
      let brace_depth' :=
        brace_depth + Scanner.count_char "{" l - Scanner.count_char "}" l in
      if (has_opened' && (brace_depth' <=? 0))%bool then i
      else scan rest' (i + 1) brace_depth' has_opened'
  end.

(** *** Texts made of characters of one class *)

Fixpoint every (p : ascii -> bool) (s : string) : bool :=
  match s with
  | EmptyString => true
  | String c s' => (p c && every p s')%bool
  end.

(** The character before the position after the text [s]. *)
Fixpoint last_of (pv : option ascii) (s : string) : option ascii :=
  match s with
  | EmptyString => pv
  | String c s' => last_of (Some c) s'
  end.

(** A bare value: not empty, without white space and without double quote. *)
Definition bare (c : ascii) : bool := (nonspace c && chr_isnot DQ c)%bool.

(** The line [Param(Q name Q, value);], Q being the double quote. *)
Definition param_line (name value : string) : string :=
  ("Param(" ++ Q ++ name ++ Q ++ ", " ++ value ++ ");")%string.

(** *** Lines that call a function *)

(** [t] less the prefix [s], when it begins with it. *)
Fixpoint strip_prefix (s t : string) : option string :=
  match s with
  | EmptyString => Some t
  | String a s' =>
      match t with
      | String b t' => if Ascii.eqb a b then strip_prefix s' t' else None
      | EmptyString => None
      end
  end.

(** A plain argument: without white space, double quote, closing
    parenthesis or comma. *)
Definition plain_arg (c : ascii) : bool :=
  (nonspace c && chr_isnot DQ c && chr_isnot ")" c && chr_isnot "," c)%bool.

(** The line [name(value)] followed by [closing]. *)
Definition call_line (name value closing : string) : string :=
  (name ++ "(" ++ value ++ ")" ++ closing)%string.

(** The two arguments [first, second]. *)
Definition two_args (first second : string) : string :=
  (first ++ ", " ++ second)%string.

(** *** Lines of an INI file *)

(** A plain INI value: without white space, double quote or opening
    parenthesis. *)
Definition ini_value (c : ascii) : bool :=
  (nonspace c && chr_isnot DQ c && chr_isnot "(" c)%bool.

(** The line [key = value], with the white space [sp1] and [sp2] around the
    equals sign. *)
Definition ini_line (key sp1 sp2 value : string) : string :=
  (key ++ sp1 ++ "=" ++ sp2 ++ value)%string.

(** *** Lines of a JSON text *)

(** A JSON value on one line: without white space or comma. *)
Definition json_scalar (c : ascii) : bool :=
  (nonspace c && chr_isnot "," c)%bool.

(** The line [Q key Q: value] after [indent] and before [closing], Q being
    the double quote. *)
Definition json_line (indent key value closing : string) : string :=
  (indent ++ Q ++ key ++ Q ++ ": " ++ value ++ closing)%string.

End Notions.

(** * Properties of the changed-line pair extractor *)

Module ExtractFacts.
Import Str Re Parsing Notions.

#[local] Arguments Ascii.eqb : simpl never.
#[local] Open Scope list_scope.

Ltac line_cases :=
  repeat match goal with
  | |- context [Ascii.eqb ?x ?y] => destruct (Ascii.eqb_spec x y); subst; simpl
  end; try (split; intro); try discriminate; try reflexivity; try congruence.

Lemma kind_of_plus (l : string) :
  kind_of l = Plus <-> is_plus l = true.
Proof.
  unfold kind_of, is_plus, is_minus.
  destruct l as [|a [|b [|c l]]]; simpl; line_cases.
Qed.

Lemma kind_of_minus (l : string) :
  kind_of l = Minus <-> is_minus l = true.
Proof.
  unfold kind_of, is_plus, is_minus.
  destruct l as [|a [|b [|c l]]]; simpl; line_cases.
Qed.

Lemma kind_of_hunk (l : string) :
  kind_of l = Hunk <-> startswith "@@" l = true.
Proof.
  unfold kind_of, is_plus, is_minus.
  destruct l as [|a [|b [|c l]]]; simpl; line_cases.
Qed.

Lemma step_eq (st : xstate) (l : string) :
  step st l =
  match kind_of l with
  | Hunk =>
      mkx (changes st)
          (option_map fst (hunk_start l)) (option_map snd (hunk_start l))
          false None None
  | Skipped => st
  | Minus =>
      match old_line_num st with
      | Some n =>
          mkx (changes st) (Some (n + 1)) (new_line_num st)
              true (Some (tail l)) (Some n)
      | None => st
      end
  | Plus =>
      match pending st with
      | Some (c, n) =>
          mkx (changes st ++ [(Some c, Some (tail l), Some n, new_line_num st)])
              (old_line_num st) (incr (new_line_num st)) false None None
      | None =>
          mkx (changes st ++ [(None, Some (tail l), None, new_line_num st)])
              (old_line_num st) (incr (new_line_num st))
              (last_was_minus st) (last_minus_content st)
              (last_minus_line_num st)
      end
  | Context =>
      match pending st with
      | Some (c, n) =>
          mkx (changes st ++ [(Some c, None, Some n, None)])
              (incr (old_line_num st)) (incr (new_line_num st))
              false None None
      | None =>
          mkx (changes st) (incr (old_line_num st)) (incr (new_line_num st))
              (last_was_minus st) (last_minus_content st)
              (last_minus_line_num st)
      end
  end.
Proof.
  unfold step, kind_of.
  destruct (startswith "@@" l); [reflexivity|].
  destruct (startswith "---" l || startswith "+++" l)%bool; [reflexivity|].
  destruct (negb (truthy l)); [reflexivity|].
  destruct (is_minus l); [reflexivity|].
  destruct (is_plus l); reflexivity.
Qed.

Lemma run_lines_app (st : xstate) (xs ys : list string) :
  run_lines st (xs ++ ys) = run_lines (run_lines st xs) ys.
Proof. apply fold_left_app. Qed.

Lemma old_side_app (xs ys : list change) :
  old_side (xs ++ ys) = old_side xs ++ old_side ys.
Proof. apply flat_map_app. Qed.

Lemma new_side_app (xs ys : list change) :
  new_side (xs ++ ys) = new_side xs ++ new_side ys.
Proof. apply flat_map_app. Qed.

(** *** The new side: every [+] line the loop sees gives one tuple *)

Lemma step_new_side (st : xstate) (l : string) :
  new_side (changes (step st l)) =
  new_side (changes st) ++ (if is_plus l then [tail l] else []).
Proof.
  rewrite step_eq.
  destruct (kind_of l) eqn:K.
  - destruct (is_plus l) eqn:P; [apply kind_of_plus in P; congruence|].
    simpl. now rewrite app_nil_r.
  - destruct (is_plus l) eqn:P; [apply kind_of_plus in P; congruence|].
    now rewrite app_nil_r.
  - destruct (is_plus l) eqn:P; [apply kind_of_plus in P; congruence|].
    destruct (old_line_num st); simpl; now rewrite app_nil_r.
  - apply kind_of_plus in K. rewrite K.
    destruct (pending st) as [[c n]|]; simpl; now rewrite new_side_app.
  - destruct (is_plus l) eqn:P; [apply kind_of_plus in P; congruence|].
    destruct (pending st) as [[c n]|]; simpl;
      rewrite ?new_side_app; simpl; now rewrite ?app_nil_r.
Qed.

Lemma run_new_side (lines : list string) (st : xstate) :
  new_side (changes (run_lines st lines)) =
  new_side (changes st) ++ contents is_plus lines.
Proof.
  revert st. induction lines as [|l lines IH]; intro st; simpl.
  - now rewrite app_nil_r.
  - unfold run_lines in *. rewrite IH, step_new_side, <- app_assoc.
    unfold contents. simpl. destruct (is_plus l); reflexivity.
Qed.

Lemma finish_new_side (st : xstate) :
  new_side (finish st) = new_side (changes st).
Proof.
  unfold finish. destruct (pending st) as [[c n]|]; [|reflexivity].
  rewrite new_side_app. simpl. now rewrite app_nil_r.
Qed.

(** *** The old side: no removal is invented or repeated *)

Lemma sublist_nil_l (A : Type) (m : list A) : sublist [] m.
Proof. induction m; constructor; assumption. Qed.

Lemma sublist_refl (A : Type) (m : list A) : sublist m m.
Proof. induction m; constructor; assumption. Qed.

Lemma sublist_app (A : Type) (a m b n : list A) :
  sublist a m -> sublist b n -> sublist (a ++ b) (m ++ n).
Proof.
  intros H Hb. induction H; simpl.
  - assumption.
  - now constructor.
  - now constructor.
Qed.

Lemma sublist_drop (A : Type) (a b m : list A) :
  sublist (a ++ b) m -> sublist a m.
Proof.
  intro H. remember (a ++ b) as ab eqn:E. revert a E.
  induction H as [|x c m H IH|x c m H IH]; intros a E.
  - destruct a; [constructor | discriminate].
  - constructor. now apply IH.
  - destruct a as [|y a]; [apply sublist_nil_l|].
    simpl in E. injection E as E1 E2. subst. apply sub_keep. now apply IH.
Qed.

Lemma finish_old_side (st : xstate) :
  old_side (finish st) = old_side (changes st) ++ held st.
Proof.
  unfold finish, held. destruct (pending st) as [[c n]|].
  - now rewrite old_side_app.
  - now rewrite app_nil_r.
Qed.

Lemma step_old_side (st : xstate) (l : string) (m : list string) :
  sublist (old_side (changes st) ++ held st) m ->
  sublist (old_side (changes (step st l)) ++ held (step st l))
          (m ++ (if is_minus l then [tail l] else [])).
Proof.
  intro H. rewrite step_eq.
  destruct (kind_of l) eqn:K;
    (destruct (is_minus l) eqn:M;
     [apply kind_of_minus in M; try congruence
     | try (apply kind_of_minus in K; congruence); rewrite (app_nil_r m)]).
  - unfold held, pending. simpl. rewrite app_nil_r.
    now apply sublist_drop in H.
  - assumption.
  - destruct (old_line_num st).
    + unfold held, pending. simpl. apply sublist_app.
      * now apply sublist_drop in H.
      * apply sublist_refl.
    + rewrite <- (app_nil_r (old_side (changes st) ++ held st)).
      apply sublist_app; [assumption | apply sublist_nil_l].
  - unfold held in *. destruct (pending st) as [[c n]|] eqn:P.
    + unfold pending. simpl. rewrite old_side_app. simpl.
      now rewrite app_nil_r.
    + unfold pending. simpl. fold (pending st). rewrite P.
      rewrite old_side_app. simpl. now rewrite !app_nil_r in *.
  - unfold held in *. destruct (pending st) as [[c n]|] eqn:P.
    + unfold pending. simpl. rewrite old_side_app. simpl.
      now rewrite app_nil_r.
    + unfold pending. simpl. fold (pending st). now rewrite P.
Qed.

Lemma run_old_side (lines : list string) (st : xstate) (m : list string) :
  sublist (old_side (changes st) ++ held st) m ->
  sublist (old_side (finish (run_lines st lines)))
          (m ++ contents is_minus lines).
Proof.
  revert st m. induction lines as [|l lines IH]; intros st m H.
  - simpl. rewrite finish_old_side. unfold contents. simpl.
    now rewrite app_nil_r.
  - simpl. apply (@step_old_side st l) in H. apply IH in H.
    unfold contents in *. simpl. rewrite <- app_assoc in H.
    destruct (is_minus l); exact H.
Qed.

(** *** The old side: when no removal is lost *)

Lemma is_some_incr (o : option Z) : is_some (incr o) = is_some o.
Proof. now destruct o. Qed.

Lemma step_clean (st : xstate) (l : string) (lines m : list string) :
  old_side (changes st) ++ held st = m ->
  clean (is_some (old_line_num st)) (is_some (pending st)) (l :: lines) = true ->
  old_side (changes (step st l)) ++ held (step st l)
    = m ++ (if is_minus l then [tail l] else []) /\
  clean (is_some (old_line_num (step st l))) (is_some (pending (step st l)))
        lines = true.
Proof.
  intros H C. rewrite step_eq. simpl in C.
  destruct (kind_of l) eqn:K;
    (destruct (is_minus l) eqn:M;
     [apply kind_of_minus in M; try congruence
     | try (apply kind_of_minus in K; congruence); rewrite (app_nil_r m)]).
  - apply andb_prop in C. destruct C as [C1 C2].
    unfold held in *. destruct (pending st) as [[c n]|]; [discriminate|].
    unfold pending. simpl. split; [exact H|].
    now destruct (hunk_start l).
  - now split.
  - apply andb_prop in C. destruct C as [C1 C2].
    apply andb_prop in C1. destruct C1 as [C0 C1].
    unfold held in *. destruct (pending st) as [[c n]|]; [discriminate|].
    destruct (old_line_num st); [|discriminate].
    unfold pending. simpl. rewrite app_nil_r in H. subst m. now split.
  - unfold held in *. destruct (pending st) as [[c n]|] eqn:P.
    + unfold pending. simpl. rewrite old_side_app. simpl.
      rewrite app_nil_r. now split.
    + unfold pending. simpl. fold (pending st). rewrite P.
      rewrite old_side_app. simpl. rewrite !app_nil_r in *. now split.
  - unfold held in *. destruct (pending st) as [[c n]|] eqn:P.
    + unfold pending. simpl. rewrite old_side_app. simpl.
      rewrite app_nil_r, is_some_incr. now split.
    + unfold pending. simpl. fold (pending st). rewrite P.
      rewrite is_some_incr. now split.
Qed.

Lemma run_clean (lines : list string) (st : xstate) (m : list string) :
  old_side (changes st) ++ held st = m ->
  clean (is_some (old_line_num st)) (is_some (pending st)) lines = true ->
  old_side (finish (run_lines st lines)) = m ++ contents is_minus lines.
Proof.
  revert st m. induction lines as [|l lines IH]; intros st m H C.
  - simpl. rewrite finish_old_side. unfold contents. simpl.
    now rewrite app_nil_r.
  - destruct (@step_clean st l lines m H C) as [H' C'].
    simpl. rewrite (IH _ _ H' C'). unfold contents. simpl.
    rewrite <- app_assoc. now destruct (is_minus l).
Qed.

(** *** The tuples already made are a prefix the loop never looks at *)

Lemma step_prepend (cs : list change) (st : xstate) (l : string) :
  step (prepend cs st) l = prepend cs (step st l).
Proof.
  rewrite !step_eq. unfold prepend.
  destruct (kind_of l); simpl; try reflexivity.
  - destruct (old_line_num st) eqn:E; simpl; rewrite ?E; reflexivity.
  - unfold pending. simpl. fold (pending st).
    destruct (pending st) as [[c n]|]; simpl; now rewrite app_assoc.
  - unfold pending. simpl. fold (pending st).
    destruct (pending st) as [[c n]|]; simpl; now rewrite ?app_assoc.
Qed.

Lemma run_prepend (lines : list string) (cs : list change) (st : xstate) :
  run_lines (prepend cs st) lines = prepend cs (run_lines st lines).
Proof.
  revert st. induction lines as [|l lines IH]; intro st; simpl.
  - reflexivity.
  - rewrite step_prepend. apply IH.
Qed.

Lemma finish_prepend (cs : list change) (st : xstate) :
  finish (prepend cs st) = cs ++ finish st.
Proof.
  unfold finish, prepend, pending. simpl. fold (pending st).
  destruct (pending st) as [[c n]|]; simpl; now rewrite ?app_assoc.
Qed.

(** A hunk header forgets everything but the tuples. *)
Lemma step_hunk_fresh (st : xstate) (h : string) :
  startswith "@@" h = true ->
  step st h = prepend (changes st) (step init h).
Proof.
  intro H. apply kind_of_hunk in H. rewrite !step_eq, H.
  unfold prepend. simpl. now rewrite app_nil_r.
Qed.

(** *** Every tuple has a side *)

Lemma step_has_side (st : xstate) (l : string) :
  Forall has_side (changes st) -> Forall has_side (changes (step st l)).
Proof.
  intro H. rewrite step_eq. destruct (kind_of l); simpl; try assumption.
  - now destruct (old_line_num st).
  - destruct (pending st) as [[c n]|]; simpl; apply Forall_app; split;
      try assumption; repeat constructor.
  - destruct (pending st) as [[c n]|]; simpl; try assumption.
    apply Forall_app; split; try assumption; repeat constructor.
Qed.

Lemma run_has_side (lines : list string) (st : xstate) :
  Forall has_side (changes st) -> Forall has_side (finish (run_lines st lines)).
Proof.
  revert st. induction lines as [|l lines IH]; intros st H; simpl.
  - unfold finish. destruct (pending st) as [[c n]|]; try assumption.
    apply Forall_app; split; try assumption; repeat constructor.
  - apply IH. now apply step_has_side.
Qed.

(** *** Hunk headers the loop does not accept *)

Lemma bad_header_hunk_start (h : string) :
  bad_header h <-> hunk_start h = None.
Proof.
  unfold bad_header, hunk_start. destruct (search hunk_re h) as [m|].
  - destruct (int (group_str 1 m) >? 0) eqn:A;
    destruct (int (group_str 3 m) >? 0) eqn:B;
    destruct (int (group_str 1 m) <=? 100000000) eqn:C;
    destruct (int (group_str 3 m) <=? 100000000) eqn:D; simpl;
    split; intro H; try reflexivity; try discriminate; lia.
  - tauto.
Qed.

Lemma step_untracked (st : xstate) (l : string) :
  untracked st -> startswith "@@" l = false ->
  untracked (step st l) /\
  changes (step st l) =
  changes st ++ (if is_plus l then [null_addition (tail l)] else []).
Proof.
  intros (Ho & Hn & Hp) Hh. rewrite step_eq.
  destruct (kind_of l) eqn:K.
  - apply kind_of_hunk in K. congruence.
  - destruct (is_plus l) eqn:P; [apply kind_of_plus in P; congruence|].
    rewrite app_nil_r. repeat split; assumption.
  - destruct (is_plus l) eqn:P; [apply kind_of_plus in P; congruence|].
    rewrite Ho, app_nil_r. repeat split; assumption.
  - apply kind_of_plus in K. rewrite K, Hp, Hn. unfold untracked, pending.
    simpl. fold (pending st). now rewrite Ho, Hp.
  - destruct (is_plus l) eqn:P; [apply kind_of_plus in P; congruence|].
    rewrite Hp, Ho, Hn, app_nil_r. unfold untracked, pending. simpl.
    fold (pending st). now rewrite Hp.
Qed.

Lemma run_untracked (body : list string) (st : xstate) :
  untracked st ->
  Forall (fun l => startswith "@@" l = false) body ->
  untracked (run_lines st body) /\
  changes (run_lines st body) =
  changes st ++ map null_addition (contents is_plus body).
Proof.
  revert st. induction body as [|l body IH]; intros st U F; simpl.
  - now rewrite app_nil_r.
  - inversion F as [|? ? Fl Fb]; subst.
    destruct (@step_untracked st l U Fl) as [U' E].
    destruct (IH _ U' Fb) as [U'' E']. split; [exact U''|].
    rewrite E', E, <- app_assoc. unfold contents.
    simpl. now destruct (is_plus l).
Qed.

Lemma finish_run_boundary (post : list string) (st : xstate) :
  pending st = None -> at_boundary post ->
  finish (run_lines st post) = changes st ++ extract_lines post.
Proof.
  intros P B. destruct post as [|h post].
  - unfold extract_lines, finish. simpl. rewrite P. now rewrite app_nil_r.
  - unfold at_boundary in B. simpl fold_left. unfold run_lines at 1.
    simpl fold_left.
    rewrite (@step_hunk_fresh st h B). unfold extract_lines. simpl fold_left.
    fold (run_lines (prepend (changes st) (step init h)) post).
    fold (run_lines (step init h) post).
    now rewrite run_prepend, finish_prepend.
Qed.

(** *** The claims about the extractor *)




(** C2: on a hunk with the run [-a], [-b] before [+c], the extractor
    returns the one pair of [b] with [c]; the removal of [a] is in no
    tuple. *)
Lemma back_to_back_removals_lost :
  _extract_changed_lines diff_two_for_one
    = [(Some "b", Some "c", Some 2, Some 1)]%string.
Proof. vm_compute. reflexivity. Qed.




End ExtractFacts.

(** * Properties of the two parameter parsers *)

Module ParamFacts.
Import Str Re Parsing Notions.

#[local] Open Scope list_scope.

Lemma split_go_cons (sep : ascii) (s cur : string) :
  exists x xs, split_go sep cur s = x :: xs.
Proof.
  revert cur. induction s as [|c s IH]; intro cur; simpl.
  - eauto.
  - destruct (Ascii.eqb c sep); eauto.
Qed.

(** With a comma in it, the value of the function-call case is the last
    piece. *)
Lemma last_argument_comma (value : string) :
  contains "," value = true ->
  last_argument value = strip (last_part (map strip (split "," value))).
Proof.
  intro H. unfold last_argument. rewrite H.
  unfold split. destruct (split_go_cons "," value EmptyString) as (x & xs & E).
  now rewrite E.
Qed.

(** C9, as stated, fails: on the line [bone(QPELVISQ, QPelvisQ);] (Q the
    double quote) the fallback map does not record the full stripped
    argument text: that text begins and ends with a double quote, so the
    fallback removes its first and last character. *)
Lemma full_argument_counterexample :
  search param_re bone_line = None /\
  exists m,
    search prop_re bone_line = Some m /\
    contains "," (argument_text m) = true /\
    argument_text m = (Q ++ "PELVIS" ++ Q ++ ", " ++ Q ++ "Pelvis" ++ Q)%string /\
    _parse_params [bone_line]
      = [("bone", ("PELVIS" ++ Q ++ ", " ++ Q ++ "Pelvis")%string)] /\
    dict_get (_parse_params [bone_line]) "bone" <> Some (argument_text m).
Proof.
  split; [vm_compute; reflexivity|].
  eexists. split; [vm_compute; reflexivity|].
  repeat split; try (vm_compute; reflexivity).
  vm_compute. discriminate.
Qed.

(** C9, amended: on every line that matches the function-call pattern and
    not the [Param] pattern, with a comma in the stripped argument text, the
    fallback map records that whole text, less its first and last character
    when it begins and ends with a double quote; the line extractor of the
    diff mode records the last comma-separated piece, stripped, less its
    quotes likewise. The two modes do report different values for one line. *)
Theorem fallback_keeps_all_arguments :
  (forall line m,
     search param_re line = None ->
     search prop_re line = Some m ->
     contains "," (argument_text m) = true ->
     _parse_params [line]
       = [(group_str 1 m, unquote (argument_text m))] /\
     extract_param_from_line line
       = Some (group_str 1 m,
               unquote (strip (last_part
                          (map strip (split "," (argument_text m))))))) /\
  (exists line v1 v2,
     dict_get (_parse_params [line]) "f" = Some v1 /\
     extract_param_from_line line = Some ("f"%string, v2) /\ v1 <> v2).
Proof.
  split.
  - intros line m Hp Hm Hc. split.
    + unfold _parse_params. simpl. unfold parse_step, parse_line.
      now rewrite Hp, Hm.
    + unfold extract_param_from_line.
      destruct line as [|c line]; [vm_compute in Hm; discriminate|].
      simpl truthy. cbv iota. simpl negb. cbv iota.
      rewrite Hp, Hm. fold (argument_text m).
      now rewrite last_argument_comma.
  - exists "f(1, 2);"%string, "1, 2"%string, "2"%string.
    repeat split; try (vm_compute; reflexivity). discriminate.
Qed.

Lemma fallback_keeps_all_arguments_witness :
  _parse_params [bone_line]
    = [("bone", ("PELVIS" ++ Q ++ ", " ++ Q ++ "Pelvis")%string)] /\
  extract_param_from_line bone_line = Some ("bone", "Pelvis")%string.
Proof.
  refine (proj1 fallback_keeps_all_arguments bone_line
            [(2%nat, (Q ++ "PELVIS" ++ Q ++ ", " ++ Q ++ "Pelvis" ++ Q)%string);
             (1%nat, "bone"%string)] _ _ _).
  - vm_compute. reflexivity.
  - vm_compute. reflexivity.
  - vm_compute. reflexivity.
Defined.

End ParamFacts.

(** * Properties of the whole-file parameter maps *)

Module FallbackFacts.
Import Str Re Parsing TextComparison Notions.

#[local] Open Scope list_scope.

Lemma dict_get_set (d : dict) (k v k' : string) :
  dict_get (dict_set d k v) k' =
  if String.eqb k k' then Some v else dict_get d k'.
Proof.
  induction d as [|[a b] d IH]; simpl.
  - reflexivity.
  - destruct (String.eqb_spec a k) as [->|Hak]; simpl.
    + destruct (String.eqb_spec k k'); reflexivity.
    + rewrite IH. destruct (String.eqb_spec a k') as [->|Hak'].
      * destruct (String.eqb_spec k k'); [congruence | reflexivity].
      * reflexivity.
Qed.

Lemma keys_set (d : dict) (k v x : string) :
  In x (keys (dict_set d k v)) <-> x = k \/ In x (keys d).
Proof.
  unfold keys. induction d as [|[a b] d IH]; simpl.
  - intuition.
  - destruct (String.eqb_spec a k) as [->|Hak]; simpl.
    + intuition.
    + rewrite IH. intuition.
Qed.

Lemma keys_set_nodup (d : dict) (k v : string) :
  NoDup (keys d) -> NoDup (keys (dict_set d k v)).
Proof.
  unfold keys. induction d as [|[a b] d IH]; simpl; intro H.
  - repeat constructor. intros [].
  - inversion H as [|? ? Hn Hd]; subst.
    destruct (String.eqb_spec a k) as [->|Hak]; simpl.
    + now constructor.
    + constructor; [|now apply IH].
      intro Hin. apply (keys_set d k v a) in Hin. intuition.
Qed.

Lemma parse_params_from_nodup (lines : list string) (d : dict) :
  NoDup (keys d) -> NoDup (keys (fold_left parse_step lines d)).
Proof.
  revert d. induction lines as [|l lines IH]; intros d H; simpl.
  - assumption.
  - apply IH. unfold parse_step. destruct (parse_line l) as [[k v]|].
    + now apply keys_set_nodup.
    + assumption.
Qed.

Lemma parse_params_nodup (lines : list string) :
  NoDup (keys (_parse_params lines)).
Proof. apply parse_params_from_nodup. constructor. Qed.

Lemma dict_get_in (d : dict) (k v : string) :
  NoDup (keys d) -> (In (k, v) d <-> dict_get d k = Some v).
Proof.
  unfold keys. induction d as [|[a b] d IH]; simpl; intro H.
  - split; [intros [] | discriminate].
  - inversion H as [|? ? Hn Hd]; subst.
    destruct (String.eqb_spec a k) as [->|Hak].
    + split.
      * intros [E|Hin]; [congruence|].
        exfalso. apply Hn. apply (in_map fst) in Hin. exact Hin.
      * intro E. left. congruence.
    + rewrite <- (IH Hd). split.
      * intros [E|Hin]; [congruence | assumption].
      * intro Hin. now right.
Qed.

(** Each line overwrites what the lines before it stored under its name. *)
Lemma parse_params_from_get (lines : list string) (d : dict) (n : string) :
  dict_get (fold_left parse_step lines d) n =
  fold_left (fun acc line =>
    match parse_line line with
    | Some (k, v) => if String.eqb k n then Some v else acc
    | None => acc
    end) lines (dict_get d n).
Proof.
  revert d. induction lines as [|l lines IH]; intro d; simpl.
  - reflexivity.
  - rewrite IH. f_equal. unfold parse_step.
    destruct (parse_line l) as [[k v]|]; [apply dict_get_set | reflexivity].
Qed.

Lemma parse_params_last (lines : list string) (n : string) :
  dict_get (_parse_params lines) n = last_value lines n.
Proof. apply parse_params_from_get. Qed.

Lemma fallback_in (d1 d2 : dict) (n o v : string) :
  NoDup (keys d1) ->
  (In (n, o, v) (fallback_changes d1 d2) <->
   dict_get d1 n = Some o /\ dict_get d2 n = Some v /\ o <> v).
Proof.
  intro H. rewrite <- (dict_get_in d1 n o H).
  unfold fallback_changes. rewrite in_flat_map. split.
  - intros [[k w] [Hin Hx]].
    destruct (dict_get d2 k) as [u|] eqn:G; [|destruct Hx].
    destruct (String.eqb_spec u w) as [->|Hne]; simpl in Hx; [destruct Hx|].
    destruct Hx as [E|[]]. injection E as -> -> ->. auto.
  - intros (Hin & G & Hne). exists (n, o). split; [assumption|].
    rewrite G. destruct (String.eqb_spec v o) as [->|_]; [congruence|].
    simpl. now left.
Qed.

End FallbackFacts.

(** * Properties of the file-pair comparator *)

Module CompareFacts.
Import Str Re Parsing Models TextComparison Notions.

#[local] Open Scope list_scope.

Section Facts.

Variable read_file : Path -> option bytes.
Variable utf8_decode : bytes -> option string.
Variable utf8_decode_replace : bytes -> string.
Variable json_value : Type.
Variable json_loads : string -> option json_value.
Variable json_dumps : json_value -> Z -> bool -> bool -> string.
Variable unified_diff :
  list string -> list string -> string -> string -> Z -> list string.

Abbreviation compare :=
  (compare_plain_text_files read_file utf8_decode utf8_decode_replace
     json_loads json_dumps unified_diff).
Abbreviation is_text := (_is_text utf8_decode).
Abbreviation decode := (_decode_text utf8_decode_replace).
Abbreviation normalize := (_normalize_json json_loads json_dumps).
Abbreviation pair_of := (normalized_pair json_loads json_dumps).

(** The comparator always returns, and what it returns has one of five
    shapes. *)
Lemma compare_shapes (original modded : Path) (context : Z)
    (include_diff : bool) (max_text_bytes : Z) :
  let nm := name original in
  compare original modded context include_diff max_text_bytes = Return [] \/
  compare original modded context include_diff max_text_bytes
    = Return [mkFileDiff nm removed None None false None] \/
  compare original modded context include_diff max_text_bytes
    = Return [mkFileDiff nm modified_binary None None false None] \/
  compare original modded context include_diff max_text_bytes
    = Return [mkFileDiff nm modified_text None None false None] \/
  (exists d ps cs,
     compare original modded context include_diff max_text_bytes
     = Return [mkFileDiff nm modified_text (Some d) (or_none ps) false (Some cs)]) \/
  (exists ps,
     compare original modded context include_diff max_text_bytes
     = Return [mkFileDiff nm modified_text None (or_none ps) true None]).
Proof.
  intro nm. unfold compare_plain_text_files.
  destruct (read_file original) as [ob|]; [|now left].
  destruct (read_file modded) as [mb|].
  2:{ destruct (is_text ob); [right; now left | now left]. }
  destruct (bytes_eqb ob mb); [now left|].
  destruct (is_text ob && is_text mb)%bool.
  2:{ right; right; now left. }
  destruct (pair_of original (decode ob) (decode mb)) as [[oc mc] j].
  destruct include_diff.
  2:{ right; right; right; now left. }
  destruct ((len ob <=? max_text_bytes) && (len mb <=? max_text_bytes))%bool.
  - right; right; right; right; left. eexists _, _, _. reflexivity.
  - right; right; right; right; right. eexists. reflexivity.
Qed.




(** C5: a result with [diff_truncated] set has no [diff] and no
    [changed_lines]; its [param_changes] is the list the fallback makes from
    the two whole-file maps (null when that list is empty), and a triple is
    in that list exactly when its name has, as the value of the last line
    that stores it, the old value in the original and a different new value
    in the modified file: a name that only one file stores gives no triple. *)
Theorem truncated_result (original modded : Path) (context : Z)
    (include_diff : bool) (max_text_bytes : Z)
    (results : list FileDiff) (r : FileDiff) :
  compare original modded context include_diff max_text_bytes = Return results ->
  In r results ->
  diff_truncated r = true ->
  exists ob mb,
    read_file original = Some ob /\ read_file modded = Some mb /\
    let '(oc, mc, _) := pair_of original (decode ob) (decode mb) in
    let found :=
      fallback_changes (_parse_params (splitlines oc))
                       (_parse_params (splitlines mc)) in
    diff r = None /\ changed_lines r = None /\
    param_changes r = or_none found /\
    forall n o v,
      In (n, o, v) found <->
      last_value (splitlines oc) n = Some o /\
      last_value (splitlines mc) n = Some v /\ o <> v.
Proof.
  unfold compare_plain_text_files. intros E Hin T.
  destruct (read_file original) as [ob|].
  2:{ injection E as <-. destruct Hin. }
  destruct (read_file modded) as [mb|].
  2:{ destruct (is_text ob); injection E as <-;
        [destruct Hin as [<-|[]]; discriminate | destruct Hin]. }
  exists ob, mb. split; [reflexivity|]. split; [reflexivity|].
  destruct (bytes_eqb ob mb).
  { injection E as <-. destruct Hin. }
  destruct (is_text ob && is_text mb)%bool.
  2:{ injection E as <-. destruct Hin as [<-|[]]. discriminate. }
  destruct (pair_of original (decode ob) (decode mb)) as [[oc mc] j].
  destruct include_diff.
  2:{ injection E as <-. destruct Hin as [<-|[]]. discriminate. }
  destruct ((len ob <=? max_text_bytes) && (len mb <=? max_text_bytes))%bool.
  { injection E as <-. destruct Hin as [<-|[]]. discriminate. }
  injection E as <-. destruct Hin as [<-|[]]. simpl.
  split; [reflexivity|]. split; [reflexivity|]. split; [reflexivity|].
  intros n o v. rewrite <- !FallbackFacts.parse_params_last.
  apply FallbackFacts.fallback_in. apply FallbackFacts.parse_params_nodup.
Qed.


End Facts.





Lemma truncated_result_witness :
  exists ob mb,
    two_files "Speed(10);" "Speed(20);" old_txt = Some ob /\
    two_files "Speed(10);" "Speed(20);" new_txt = Some mb /\
    let '(oc, mc, _) :=
      normalized_pair no_json dumps_unit old_txt
        (decode_ascii_replace ob) (decode_ascii_replace mb) in
    let found :=
      fallback_changes (_parse_params (splitlines oc))
                       (_parse_params (splitlines mc)) in
    None = @None string /\ None = @None (list change) /\
    Some [("Speed", "10", "20")] = or_none found /\
    forall n o v,
      In (n, o, v) found <->
      last_value (splitlines oc) n = Some o /\
      last_value (splitlines mc) n = Some v /\ o <> v.
Proof.
  apply (@truncated_result (two_files "Speed(10);" "Speed(20);")
           decode_ascii decode_ascii_replace unit no_json dumps_unit no_diff
           old_txt new_txt 1 true 4
           [mkFileDiff "old.txt" modified_text None
              (Some [("Speed", "10", "20")]) true None]
           (mkFileDiff "old.txt" modified_text None
              (Some [("Speed", "10", "20")]) true None)).
  - vm_compute. reflexivity.
  - left. reflexivity.
  - reflexivity.
Defined.



End CompareFacts.

(** * From the diff text to the parameter changes *)

Module PipelineFacts.
Import Str Re Parsing Notions ExtractFacts.

#[local] Arguments Ascii.eqb : simpl never.
#[local] Open Scope list_scope.

Lemma append_assoc (a b c : string) :
  ((a ++ b) ++ c = a ++ (b ++ c))%string.
Proof. induction a as [|x a IH]; simpl; [reflexivity | now rewrite IH]. Qed.

Lemma rev_acc_twice (l a b : string) :
  rev_acc (rev_acc l a) b = rev_acc a (l ++ b)%string.
Proof.
  revert a b. induction l as [|c l IH]; intros a b; simpl.
  - reflexivity.
  - now rewrite IH.
Qed.

Lemma rev_rev (l : string) : rev (rev l) = l.
Proof.
  unfold rev. rewrite rev_acc_twice. simpl.
  induction l as [|c l IH]; simpl; [reflexivity | now rewrite IH].
Qed.

Lemma not_break_not_cr (c : ascii) :
  islinebreak c = false -> Ascii.eqb c CR = false.
Proof.
  intro H. destruct (Ascii.eqb_spec c CR) as [->|]; [|reflexivity].
  vm_compute in H. discriminate.
Qed.

(** A line up to its line feed. *)
Lemma splitlines_go_line (l cur more : string) :
  nobreak l = true ->
  splitlines_go false cur (l ++ String LF more)%string
  = rev (rev_acc l cur) :: splitlines_go false EmptyString more.
Proof.
  revert cur. induction l as [|c l IH]; intros cur H; simpl in *.
  - reflexivity.
  - apply andb_prop in H. destruct H as [Hc Hl].
    apply negb_true_iff in Hc. rewrite (not_break_not_cr c Hc), Hc.
    now apply IH.
Qed.

(** The last line, which no boundary ends. *)
Lemma splitlines_go_last (l cur : string) :
  nobreak l = true ->
  splitlines_go false cur l
  = if truthy (rev_acc l cur) then [rev (rev_acc l cur)] else [].
Proof.
  revert cur. induction l as [|c l IH]; intros cur H; simpl in *.
  - reflexivity.
  - apply andb_prop in H. destruct H as [Hc Hl].
    apply negb_true_iff in Hc. rewrite (not_break_not_cr c Hc), Hc.
    now apply IH.
Qed.

Lemma join_lf_cons (x y : string) (rest : list string) :
  join_lf (x :: y :: rest) = (x ++ String LF (join_lf (y :: rest)))%string.
Proof. reflexivity. Qed.

Lemma splitlines_join_plain (body : list string) :
  Forall plain_line body ->
  splitlines_go false EmptyString (join_lf body) = body.
Proof.
  intros F. induction F as [|l body [Tl Nl] F IH]; [reflexivity|].
  destruct body as [|y body].
  - simpl join_lf. rewrite (splitlines_go_last l EmptyString Nl).
    fold (rev l). destruct l as [|c l]; [discriminate|].
    assert (T : truthy (rev (String c l)) = true).
    { destruct (rev (String c l)) eqn:E; [|reflexivity].
      apply (f_equal rev) in E. rewrite rev_rev in E. discriminate. }
    rewrite T. now rewrite rev_rev.
  - rewrite join_lf_cons, (splitlines_go_line l EmptyString _ Nl).
    fold (rev l). rewrite rev_rev. now rewrite IH.
Qed.

(** A header line of [difflib], which carries a line feed of its own, gives
    the line and an empty line. *)
Lemma splitlines_join_header (h y : string) (rest : list string) :
  nobreak h = true ->
  splitlines_go false EmptyString (join_lf ((h ++ NL)%string :: y :: rest))
  = h :: EmptyString :: splitlines_go false EmptyString (join_lf (y :: rest)).
Proof.
  intro N. rewrite join_lf_cons. unfold NL. rewrite append_assoc. simpl.
  rewrite (splitlines_go_line h EmptyString _ N). fold (rev h).
  rewrite rev_rev. reflexivity.
Qed.

Lemma kind_of_file_header (l : string) :
  (startswith "---" l || startswith "+++" l)%bool = true ->
  kind_of l = Skipped.
Proof.
  unfold kind_of.
  destruct l as [|a [|b [|c l]]]; simpl; line_cases.
Qed.

Lemma kind_of_context (l : string) :
  startswith " " l = true -> kind_of l = Context.
Proof.
  unfold kind_of, is_minus, is_plus.
  destruct l as [|a [|b [|c l]]]; simpl; line_cases.
Qed.

Lemma context_is_plain (l : string) : context_line l -> plain_line l.
Proof.
  intros [S N]. split; [|exact N]. destruct l; [discriminate | reflexivity].
Qed.

(** Context lines with nothing held move both counters and nothing else. *)
Lemma run_context (ls : list string) (st : xstate) :
  Forall context_line ls -> pending st = None ->
  run_lines st ls =
  mkx (changes st)
      (advance (Z.of_nat (length ls)) (old_line_num st))
      (advance (Z.of_nat (length ls)) (new_line_num st))
      (last_was_minus st) (last_minus_content st) (last_minus_line_num st).
Proof.
  intros F. revert st. induction F as [|l ls [S N] F IH]; intros st P.
  - simpl. destruct st as [cs [o|] [n|] w c k]; simpl;
      rewrite ?Z.add_0_r; reflexivity.
  - simpl fold_left. unfold run_lines. simpl fold_left.
    fold (run_lines (step st l) ls).
    assert (E : step st l =
                mkx (changes st) (incr (old_line_num st)) (incr (new_line_num st))
                    (last_was_minus st) (last_minus_content st)
                    (last_minus_line_num st)).
    { rewrite step_eq, (kind_of_context l S), P. reflexivity. }
    rewrite E, IH.
    + simpl. f_equal.
      * destruct (old_line_num st); simpl; [f_equal; lia | reflexivity].
      * destruct (new_line_num st); simpl; [f_equal; lia | reflexivity].
    + unfold pending. simpl. exact P.
Qed.

Lemma splitlines_join_header_more (h : string) (rest : list string) :
  nobreak h = true -> rest <> [] ->
  splitlines_go false EmptyString (join_lf ((h ++ NL)%string :: rest))
  = h :: EmptyString :: splitlines_go false EmptyString (join_lf rest).
Proof.
  intros N R. destruct rest as [|y rest]; [contradiction|].
  now apply splitlines_join_header.
Qed.

Lemma scenario_lines (h1 h2 h : string) (before after : list string) :
  nobreak h1 = true -> nobreak h2 = true -> nobreak h = true ->
  Forall context_line before -> Forall context_line after ->
  splitlines (scenario_diff h1 h2 h before after) =
  [h1; EmptyString; h2; EmptyString; h; EmptyString]
  ++ before ++ [("-" ++ old_l)%string; ("+" ++ new_l)%string] ++ after.
Proof.
  intros N1 N2 N Fb Fa. unfold splitlines, scenario_diff.
  rewrite !splitlines_join_header_more; try assumption;
    try discriminate; try (now destruct before).
  rewrite splitlines_join_plain; [reflexivity|].
  apply Forall_app. split.
  - eapply Forall_impl; [|exact Fb]. apply context_is_plain.
  - repeat constructor.
    eapply Forall_impl; [|exact Fa]. apply context_is_plain.
Qed.



End PipelineFacts.

(** * More on the file-pair comparator *)

Module CompareMore.
Import Str Re Parsing Models TextComparison Notions.

#[local] Open Scope list_scope.

Section Facts.

Variable read_file : Path -> option bytes.
Variable utf8_decode : bytes -> option string.
Variable utf8_decode_replace : bytes -> string.
Variable json_value : Type.
Variable json_loads : string -> option json_value.
Variable json_dumps : json_value -> Z -> bool -> bool -> string.
Variable unified_diff :
  list string -> list string -> string -> string -> Z -> list string.

Abbreviation compare :=
  (compare_plain_text_files read_file utf8_decode utf8_decode_replace
     json_loads json_dumps unified_diff).
Abbreviation is_text := (_is_text utf8_decode).
Abbreviation decode := (_decode_text utf8_decode_replace).
Abbreviation pair_of := (normalized_pair json_loads json_dumps).

Lemma bytes_eqb_refl (b : bytes) : bytes_eqb b b = true.
Proof.
  unfold bytes_eqb. destruct (list_eq_dec Byte.byte_eq_dec b b); congruence.
Qed.

Lemma bytes_eqb_neq (a b : bytes) : a <> b -> bytes_eqb a b = false.
Proof.
  intro H. unfold bytes_eqb.
  destruct (list_eq_dec Byte.byte_eq_dec a b); congruence.
Qed.

(** X1: two paths that read the same, be it the same bytes or the same
    failure, give the empty list: a file compared with itself has no
    result. *)
Theorem same_content_no_result (original modded : Path) (context : Z)
    (include_diff : bool) (max_text_bytes : Z) :
  read_file original = read_file modded ->
  compare original modded context include_diff max_text_bytes = Return [].
Proof.
  intro H. unfold compare_plain_text_files. rewrite <- H.
  destruct (read_file original) as [ob|]; [|reflexivity].
  now rewrite bytes_eqb_refl.
Qed.

(** X2: when the modified file cannot be read, a text original gives the one
    result of kind [removed], without a diff, and an original that is not
    text gives no result at all. *)
Theorem unreadable_modded (original modded : Path) (context : Z)
    (include_diff : bool) (max_text_bytes : Z) (ob : bytes) :
  read_file original = Some ob -> read_file modded = None ->
  compare original modded context include_diff max_text_bytes =
  Return (if is_text ob
          then [mkFileDiff (name original) removed None None false None]
          else []).
Proof.
  intros Ho Hm. unfold compare_plain_text_files. rewrite Ho, Hm.
  now destruct (is_text ob).
Qed.

(** X3: two readable files that differ, one of which holds a NUL byte, give
    the one result of kind [modified_binary], with no diff, no changed
    lines and no parameter changes, whatever the other arguments. *)
Theorem nul_byte_is_binary (original modded : Path) (context : Z)
    (include_diff : bool) (max_text_bytes : Z) (ob mb : bytes) :
  read_file original = Some ob -> read_file modded = Some mb ->
  ob <> mb -> In Byte.x00 ob \/ In Byte.x00 mb ->
  compare original modded context include_diff max_text_bytes =
  Return [mkFileDiff (name original) modified_binary None None false None].
Proof.
  intros Ho Hm Hne Hn. unfold compare_plain_text_files.
  rewrite Ho, Hm, (bytes_eqb_neq Hne).
  assert (T : (is_text ob && is_text mb)%bool = false).
  { apply andb_false_iff. unfold _is_text.
    destruct Hn as [Hn|Hn]; [left|right];
      (replace (existsb (Byte.eqb Byte.x00) _) with true; [reflexivity|]);
      symmetry; apply existsb_exists; exists Byte.x00;
      (split; [assumption | reflexivity]). }
  now rewrite T.
Qed.

(** The paths through the comparator, each with what led to it. *)
Lemma compare_cases (original modded : Path) (context : Z)
    (include_diff : bool) (max_text_bytes : Z) :
  let nm := name original in
  let result := compare original modded context include_diff max_text_bytes in
  (read_file original = None /\ result = Return []) \/
  (exists ob, read_file original = Some ob /\ read_file modded = None /\
     is_text ob = true /\
     result = Return [mkFileDiff nm removed None None false None]) \/
  (exists ob, read_file original = Some ob /\ read_file modded = None /\
     is_text ob = false /\ result = Return []) \/
  (exists ob, read_file original = Some ob /\ read_file modded = Some ob /\
     result = Return []) \/
  (exists ob mb, read_file original = Some ob /\ read_file modded = Some mb /\
     ob <> mb /\ (is_text ob = false \/ is_text mb = false) /\
     result = Return [mkFileDiff nm modified_binary None None false None]) \/
  (exists ob mb, read_file original = Some ob /\ read_file modded = Some mb /\
     ob <> mb /\ is_text ob = true /\ is_text mb = true /\
     include_diff = false /\
     result = Return [mkFileDiff nm modified_text None None false None]) \/
  (exists ob mb d ps cs,
     read_file original = Some ob /\ read_file modded = Some mb /\
     ob <> mb /\ is_text ob = true /\ is_text mb = true /\
     include_diff = true /\
     len ob <= max_text_bytes /\ len mb <= max_text_bytes /\
     result = Return [mkFileDiff nm modified_text (Some d) (or_none ps)
                        false (Some cs)]) \/
  (exists ob mb ps,
     read_file original = Some ob /\ read_file modded = Some mb /\
     ob <> mb /\ is_text ob = true /\ is_text mb = true /\
     include_diff = true /\
     (max_text_bytes < len ob \/ max_text_bytes < len mb) /\
     result = Return [mkFileDiff nm modified_text None (or_none ps) true None]).
Proof.
  intros nm result. subst nm result. unfold compare_plain_text_files.
  destruct (read_file original) as [ob|]; [|now left].
  destruct (read_file modded) as [mb|].
  2:{ destruct (is_text ob) eqn:T.
      - right; left. exists ob. auto.
      - right; right; left. exists ob. auto. }
  unfold bytes_eqb. destruct (list_eq_dec Byte.byte_eq_dec ob mb) as [->|Hne].
  { right; right; right; left. exists mb. auto. }
  destruct (is_text ob) eqn:To; simpl.
  2:{ do 4 right; left. exists ob, mb. auto 10. }
  destruct (is_text mb) eqn:Tm.
  2:{ do 4 right; left. exists ob, mb. auto 10. }
  destruct (pair_of original (decode ob) (decode mb)) as [[oc mc] j].
  destruct include_diff.
  2:{ do 5 right; left. exists ob, mb. auto 10. }
  destruct (len ob <=? max_text_bytes) eqn:Lo; simpl.
  2:{ do 7 right. apply Z.leb_gt in Lo. eexists ob, mb, _.
      repeat split; try reflexivity; auto. }
  destruct (len mb <=? max_text_bytes) eqn:Lm.
  2:{ do 7 right. apply Z.leb_gt in Lm. eexists ob, mb, _.
      repeat split; try reflexivity; auto. }
  do 6 right; left. apply Z.leb_le in Lo, Lm. eexists ob, mb, _, _, _.
  repeat split; try reflexivity; auto.
Qed.


(** X5: what each kind of result tells about the two files. [removed]: the
    modified file could not be read and the original is text.
    [modified_binary]: both were read, they differ and one of them is not
    text. [modified_text]: both were read, they differ and both are text.
    [added] never occurs. *)
Theorem kind_tells (original modded : Path) (context : Z)
    (include_diff : bool) (max_text_bytes : Z)
    (results : list FileDiff) (r : FileDiff) :
  compare original modded context include_diff max_text_bytes = Return results ->
  In r results ->
  match fd_kind r with
  | added => False
  | removed =>
      read_file modded = None /\
      exists ob, read_file original = Some ob /\ is_text ob = true
  | modified_binary =>
      exists ob mb, read_file original = Some ob /\ read_file modded = Some mb /\
        ob <> mb /\ (is_text ob = false \/ is_text mb = false)
  | modified_text =>
      exists ob mb, read_file original = Some ob /\ read_file modded = Some mb /\
        ob <> mb /\ is_text ob = true /\ is_text mb = true
  end.
Proof.
  intros E Hin.
  destruct (compare_cases original modded context include_diff max_text_bytes)
    as [(_ & E')|[(ob & Ho & Hm & T & E')|[(ob & _ & _ & _ & E')|[(ob & _ & _ & E')
       |[(ob & mb & Ho & Hm & Hne & T & E')
       |[(ob & mb & Ho & Hm & Hne & To & Tm & _ & E')
       |[(ob & mb & d & ps & cs & Ho & Hm & Hne & To & Tm & _ & _ & _ & E')
       |(ob & mb & ps & Ho & Hm & Hne & To & Tm & _ & _ & E')]]]]]]];
    rewrite E' in E; injection E as <-;
    try (destruct Hin as [<-|[]]); try destruct Hin; simpl; eauto 10.
Qed.

(** X6: for a [modified_text] result, [diff_truncated] is set exactly when
    the diff was asked for and the byte length of one of the two files is
    above [max_text_bytes], and the [diff] is there exactly when the diff
    was asked for and both lengths are within it; without [include_diff]
    the result has no parameter changes either. *)
Theorem truncation_by_size (original modded : Path) (context : Z)
    (include_diff : bool) (max_text_bytes : Z)
    (results : list FileDiff) (r : FileDiff) :
  compare original modded context include_diff max_text_bytes = Return results ->
  In r results ->
  fd_kind r = modified_text ->
  exists ob mb,
    read_file original = Some ob /\ read_file modded = Some mb /\
    (diff_truncated r = true <->
     include_diff = true /\
     (max_text_bytes < len ob \/ max_text_bytes < len mb)) /\
    (diff r <> None <->
     include_diff = true /\
     len ob <= max_text_bytes /\ len mb <= max_text_bytes) /\
    (include_diff = false -> param_changes r = None).
Proof.
  intros E Hin K.
  destruct (compare_cases original modded context include_diff max_text_bytes)
    as [(_ & E')|[(ob & Ho & Hm & T & E')|[(ob & _ & _ & _ & E')|[(ob & _ & _ & E')
       |[(ob & mb & Ho & Hm & Hne & T & E')
       |[(ob & mb & Ho & Hm & Hne & To & Tm & D & E')
       |[(ob & mb & d & ps & cs & Ho & Hm & Hne & To & Tm & D & Lo & Lm & E')
       |(ob & mb & ps & Ho & Hm & Hne & To & Tm & D & L & E')]]]]]]];
    rewrite E' in E; injection E as <-;
    try (destruct Hin as [<-|[]]); try destruct Hin; try discriminate;
    exists ob, mb; simpl; (split; [assumption|]); (split; [assumption|]).
  - subst include_diff. repeat split; intros; try discriminate;
      try tauto; try (destruct H; discriminate).
  - repeat split; intros; try discriminate; try assumption;
      try congruence.
    destruct H as [_ [H|H]]; lia.
  - repeat split; intros; try discriminate; try assumption; try tauto;
      try congruence.
    destruct H as (_ & A & B). lia.
Qed.

End Facts.

Lemma same_content_no_result_witness :
  run_on "same" "same" old_txt new_txt true 10 = Return [].
Proof.
  apply (@same_content_no_result (two_files "same" "same")
           decode_ascii decode_ascii_replace unit no_json dumps_unit no_diff).
  reflexivity.
Defined.

Lemma unreadable_modded_witness :
  run_on "a" "b" old_txt gone_txt true 10 =
  Return [mkFileDiff "old.txt" removed None None false None].
Proof.
  apply (@unreadable_modded (two_files "a" "b")
           decode_ascii decode_ascii_replace unit no_json dumps_unit no_diff
           old_txt gone_txt 1 true 10 (list_byte_of_string "a"));
    reflexivity.
Defined.

Lemma nul_byte_is_binary_witness :
  run_on (String (ascii_of_N 0) "a") "b" old_txt new_txt true 10 =
  Return [mkFileDiff "old.txt" modified_binary None None false None].
Proof.
  apply (@nul_byte_is_binary (two_files (String (ascii_of_N 0) "a") "b")
           decode_ascii decode_ascii_replace unit no_json dumps_unit no_diff
           old_txt new_txt 1 true 10
           (list_byte_of_string (String (ascii_of_N 0) "a"))
           (list_byte_of_string "b")).
  - reflexivity.
  - reflexivity.
  - vm_compute. discriminate.
  - left. vm_compute. left. reflexivity.
Defined.

Lemma kind_tells_witness :
  exists ob mb,
    two_files "a" "b" old_txt = Some ob /\ two_files "a" "b" new_txt = Some mb /\
    ob <> mb /\
    _is_text decode_ascii ob = true /\ _is_text decode_ascii mb = true.
Proof.
  apply (@kind_tells (two_files "a" "b")
           decode_ascii decode_ascii_replace unit no_json dumps_unit no_diff
           old_txt new_txt 1 false 10
           [mkFileDiff "old.txt" modified_text None None false None]
           (mkFileDiff "old.txt" modified_text None None false None)).
  - vm_compute. reflexivity.
  - left. reflexivity.
Defined.

Lemma truncation_by_size_witness :
  exists ob mb,
    two_files "Speed(10);" "Speed(20);" old_txt = Some ob /\
    two_files "Speed(10);" "Speed(20);" new_txt = Some mb /\
    (true = true <-> true = true /\ (4 < len ob \/ 4 < len mb)) /\
    (@None string <> None <-> true = true /\ len ob <= 4 /\ len mb <= 4) /\
    (true = false -> Some [("Speed", "10", "20")] = @None (list triple)).
Proof.
  apply (@truncation_by_size (two_files "Speed(10);" "Speed(20);")
           decode_ascii decode_ascii_replace unit no_json dumps_unit no_diff
           old_txt new_txt 1 true 4
           [mkFileDiff "old.txt" modified_text None
              (Some [("Speed", "10", "20")]) true None]
           (mkFileDiff "old.txt" modified_text None
              (Some [("Speed", "10", "20")]) true None)).
  - vm_compute. reflexivity.
  - left. reflexivity.
  - reflexivity.
Defined.

End CompareMore.

(** * More on the changed-line pair extractor *)

Module ExtractMore.
Import Str Re Parsing Notions ExtractFacts.

#[local] Arguments Ascii.eqb : simpl never.
#[local] Open Scope list_scope.

Lemma extract_lines_run (lines : list string) :
  extract_lines lines = finish (run_lines init lines).
Proof. reflexivity. Qed.

Lemma finish_flushed (st : xstate) : finish st = changes st ++ flushed st.
Proof.
  unfold finish, flushed. destruct (pending st) as [[c n]|];
    [reflexivity | now rewrite app_nil_r].
Qed.

(** *** The forms of the tuples *)

Lemma step_well_shaped (st : xstate) (l : string) :
  Forall well_shaped (changes st) -> Forall well_shaped (changes (step st l)).
Proof.
  intro H. rewrite step_eq. destruct (kind_of l); simpl; try assumption.
  - now destruct (old_line_num st).
  - destruct (pending st) as [[c n]|]; simpl; apply Forall_app; split;
      try assumption; repeat constructor.
  - destruct (pending st) as [[c n]|]; simpl; try assumption.
    apply Forall_app; split; try assumption; repeat constructor.
Qed.

Lemma run_well_shaped (lines : list string) (st : xstate) :
  Forall well_shaped (changes st) ->
  Forall well_shaped (finish (run_lines st lines)).
Proof.
  revert st. induction lines as [|l lines IH]; intros st H; simpl.
  - rewrite finish_flushed. apply Forall_app. split; [assumption|].
    unfold flushed. destruct (pending st) as [[c n]|]; repeat constructor.
  - apply IH. now apply step_well_shaped.
Qed.

(** X7: every tuple the extractor returns is a pair (both lines, with the
    old line number), an addition (the new line only, no old line number)
    or a removal (the old line and its number only): an old line comes with
    its line number and a tuple without a new line has no new line number. *)
Theorem tuples_well_shaped (diff_str : string) :
  Forall well_shaped (_extract_changed_lines diff_str).
Proof.
  unfold _extract_changed_lines. rewrite extract_lines_run.
  apply run_well_shaped. constructor.
Qed.

(** *** The line numbers are positive *)

Lemma hunk_start_bounds (h : string) (a c : Z) :
  hunk_start h = Some (a, c) ->
  1 <= a <= 100000000 /\ 1 <= c <= 100000000.
Proof.
  unfold hunk_start. destruct (search hunk_re h) as [m|]; [|discriminate].
  destruct (int (group_str 1 m) >? 0) eqn:A; simpl; [|discriminate].
  destruct (int (group_str 3 m) >? 0) eqn:B; simpl; [|discriminate].
  destruct (int (group_str 1 m) <=? 100000000) eqn:C; simpl; [|discriminate].
  destruct (int (group_str 3 m) <=? 100000000) eqn:D; simpl; [|discriminate].
  intro E. injection E as <- <-. lia.
Qed.

Lemma positive_incr (n : option Z) : positive n -> positive (incr n).
Proof. destruct n; simpl; lia. Qed.

Lemma pending_positive (st : xstate) (c : string) (n : Z) :
  positive (last_minus_line_num st) -> pending st = Some (c, n) -> 1 <= n.
Proof.
  unfold pending. destruct (last_was_minus st); [|discriminate].
  destruct (last_minus_content st); [|discriminate].
  destruct (last_minus_line_num st); [|discriminate].
  intros H E. injection E as _ <-. exact H.
Qed.

Lemma step_positive (st : xstate) (l : string) :
  state_positive st -> state_positive (step st l).
Proof.
  intros (Hc & Ho & Hn & Hp). rewrite step_eq. unfold state_positive.
  destruct (kind_of l).
  - simpl. destruct (hunk_start l) as [[a c]|] eqn:E; simpl.
    + apply hunk_start_bounds in E. repeat split; try assumption; lia.
    + repeat split; assumption.
  - repeat split; assumption.
  - destruct (old_line_num st) as [n|] eqn:E.
    + simpl in *. repeat split; try assumption; lia.
    + rewrite E. repeat split; assumption.
  - destruct (pending st) as [[c n]|] eqn:P; simpl.
    + pose proof (pending_positive st Hp P).
      repeat split; auto using positive_incr.
      apply Forall_app. split; [assumption|].
      repeat constructor; assumption.
    + repeat split; auto using positive_incr.
      apply Forall_app. split; [assumption|].
      repeat constructor; assumption.
  - destruct (pending st) as [[c n]|] eqn:P; simpl.
    + pose proof (pending_positive st Hp P).
      repeat split; auto using positive_incr.
      apply Forall_app. split; [assumption|].
      repeat constructor; assumption.
    + repeat split; auto using positive_incr.
Qed.

Lemma run_positive (lines : list string) (st : xstate) :
  state_positive st -> Forall numbers_positive (finish (run_lines st lines)).
Proof.
  revert st. induction lines as [|l lines IH]; intros st H; simpl.
  - destruct H as (Hc & _ & _ & Hp). rewrite finish_flushed.
    apply Forall_app. split; [assumption|]. unfold flushed.
    destruct (pending st) as [[c n]|] eqn:P; [|constructor].
    pose proof (pending_positive st Hp P).
    repeat constructor; assumption.
  - apply IH. now apply step_positive.
Qed.

(** X8: every line number in a tuple the extractor returns is at least 1:
    a header with a start line of 0 sets no counter, and the counters only
    grow. *)
Theorem line_numbers_positive (diff_str : string) :
  Forall numbers_positive (_extract_changed_lines diff_str).
Proof.
  unfold _extract_changed_lines. rewrite extract_lines_run.
  apply run_positive. repeat split; constructor.
Qed.

(** *** Lines that do not count *)

Lemma kind_of_skipped (l : string) :
  kind_of l = Skipped <-> skipped l = true.
Proof.
  unfold kind_of, skipped, is_minus, is_plus.
  destruct l as [|a [|b [|c l]]]; simpl; line_cases.
Qed.

Lemma run_without_skipped (lines : list string) (st : xstate) :
  run_lines st (filter (fun l => negb (skipped l)) lines) = run_lines st lines.
Proof.
  revert st. induction lines as [|l lines IH]; intro st; simpl.
  - reflexivity.
  - destruct (skipped l) eqn:S; simpl.
    + apply kind_of_skipped in S. rewrite (step_eq st l), S. apply IH.
    + apply IH.
Qed.

(** X9: the file header lines and the empty lines of a diff have no effect:
    the extractor returns the same tuples with and without them. *)
Theorem skipped_lines_do_not_count (lines : list string) :
  extract_lines (filter (fun l => negb (skipped l)) lines)
  = extract_lines lines.
Proof.
  rewrite !extract_lines_run. now rewrite run_without_skipped.
Qed.

(** *** One hunk after the other *)



(** *** The line numbers follow the header *)

Lemma counters_after (body : list string) (st : xstate) (o n : Z) :
  old_line_num st = Some o -> new_line_num st = Some n ->
  Forall (fun l => startswith "@@" l = false) body ->
  old_line_num (run_lines st body) = Some (o + count_lines consumes_old body) /\
  new_line_num (run_lines st body) = Some (n + count_lines consumes_new body).
Proof.
  revert st o n. induction body as [|l body IH]; intros st o n Ho Hn F.
  - unfold count_lines. simpl. rewrite Ho, Hn, !Z.add_0_r. now split.
  - inversion F as [|? ? Fl Fb]; subst. simpl.
    fold (run_lines (step st l) body).
    assert (S : old_line_num (step st l)
                = Some (o + (if consumes_old l then 1 else 0)) /\
                new_line_num (step st l)
                = Some (n + (if consumes_new l then 1 else 0))).
    { rewrite step_eq. unfold consumes_old, consumes_new.
      destruct (kind_of l) eqn:K.
      - apply kind_of_hunk in K. congruence.
      - rewrite Ho, Hn, !Z.add_0_r. now split.
      - rewrite Ho. simpl. rewrite Hn, Z.add_0_r. now split.
      - destruct (pending st) as [[c k]|]; simpl;
          rewrite Ho, Hn, Z.add_0_r; now split.
      - destruct (pending st) as [[c k]|]; simpl;
          rewrite Ho, Hn; now split. }
    destruct S as [So Sn]. destruct (IH _ _ _ So Sn Fb) as [Eo En].
    rewrite Eo, En. unfold count_lines. simpl.
    destruct (consumes_old l); destruct (consumes_new l); simpl length;
      split; f_equal; lia.
Qed.

(** X11: after a header the extractor accepts, with the start lines [a] and
    [c], the tuple of a [+] line carries as its new line number [c] plus
    the number of context and [+] lines of the hunk before it, and a [-]
    line that ends the text gives the removal numbered [a] plus the number
    of context and [-] lines of the hunk before it. *)
Theorem line_numbers_follow_header (pre body : list string) (hdr l : string)
    (a c : Z) :
  startswith "@@" hdr = true ->
  hunk_start hdr = Some (a, c) ->
  Forall (fun x => startswith "@@" x = false) body ->
  let before := changes (run_lines init (pre ++ hdr :: body)) in
  (is_plus l = true ->
   exists old_line old_num,
     extract_lines (pre ++ hdr :: body ++ [l]) =
     before ++ [(old_line, Some (tail l), old_num,
                 Some (c + count_lines consumes_new body))]) /\
  (is_minus l = true ->
   extract_lines (pre ++ hdr :: body ++ [l]) =
   before ++ [(Some (tail l), None,
               Some (a + count_lines consumes_old body), None)]).
Proof.
  intros Hh Hs F before.
  assert (R : run_lines init (pre ++ hdr :: body ++ [l])
              = step (run_lines init (pre ++ hdr :: body)) l).
  { replace (pre ++ hdr :: body ++ [l]) with ((pre ++ hdr :: body) ++ [l])
      by (rewrite <- app_assoc; reflexivity).
    now rewrite run_lines_app. }
  assert (C : old_line_num (run_lines init (pre ++ hdr :: body))
              = Some (a + count_lines consumes_old body) /\
              new_line_num (run_lines init (pre ++ hdr :: body))
              = Some (c + count_lines consumes_new body)).
  { rewrite run_lines_app. simpl.
    fold (run_lines (step (run_lines init pre) hdr) body).
    apply counters_after; [| |exact F];
      rewrite step_eq; apply kind_of_hunk in Hh; rewrite Hh, Hs; reflexivity. }
  destruct C as [Co Cn]. subst before.
  set (st := run_lines init (pre ++ hdr :: body)) in *.
  split; intro K.
  - rewrite extract_lines_run, R, step_eq.
    apply kind_of_plus in K. rewrite K.
    destruct (pending st) as [[x k]|] eqn:P.
    + exists (Some x), (Some k). unfold finish, pending. simpl.
      now rewrite Cn.
    + exists None, None. unfold finish, pending. simpl.
      fold (pending st). now rewrite P, Cn.
  - rewrite extract_lines_run, R, step_eq.
    apply kind_of_minus in K. rewrite K, Co. reflexivity.
Qed.

Lemma line_numbers_follow_header_witness :
  is_minus "-gone" = true /\
  extract_lines ([] ++ "@@ -10,3 +20,2 @@" :: [" a"; "-b"; "+c"; " d"] ++ ["-gone"]) =
  changes (run_lines init ([] ++ "@@ -10,3 +20,2 @@" :: [" a"; "-b"; "+c"; " d"]))
  ++ [(Some (tail "-gone"), None,
       Some (10 + count_lines consumes_old [" a"; "-b"; "+c"; " d"]), None)].
Proof.
  split; [reflexivity|].
  apply (@line_numbers_follow_header [] [" a"; "-b"; "+c"; " d"]
           "@@ -10,3 +20,2 @@" "-gone" 10 20).
  - reflexivity.
  - vm_compute. reflexivity.
  - repeat constructor.
  - reflexivity.
Defined.

End ExtractMore.

(** * More on the parameter changes and the whole-file maps *)

Module ParamMore.
Import Str Re Parsing TextComparison Notions FallbackFacts.

#[local] Open Scope list_scope.

Lemma classify_small (o n : binding) :
  (length (classify o n) <= 1)%nat /\
  Forall (fun t : triple => fst (fst t) <> EmptyString) (classify o n).
Proof.
  unfold classify.
  destruct (named o) eqn:No; destruct (named n) eqn:Nn; simpl;
    repeat match goal with
    | |- context [if ?b then _ else _] => destruct b
    end; simpl; (split; [lia|]); repeat constructor; simpl;
    unfold named, name_of in *;
    try (destruct o as [[k v]|]; [|discriminate]; destruct k; discriminate);
    try (destruct n as [[k v]|]; [|discriminate]; destruct k; discriminate).
Qed.

Lemma flat_map_small (A B : Type) (f : A -> list B) (P : B -> Prop)
    (xs : list A) :
  (forall x, (length (f x) <= 1)%nat /\ Forall P (f x)) ->
  (length (flat_map f xs) <= length xs)%nat /\ Forall P (flat_map f xs).
Proof.
  intro H. induction xs as [|x xs [IHl IHf]]; simpl.
  - split; [lia | constructor].
  - destruct (H x) as [Hl Hf]. rewrite length_app. split; [lia|].
    apply Forall_app. now split.
Qed.

(** X12: in either mode, the parameter changes are at most one triple per
    changed-line tuple, and no triple has an empty name. *)
Theorem one_triple_per_line (changed_lines : list change) (is_json : bool) :
  (length (_extract_param_changes_from_diff changed_lines is_json)
   <= length changed_lines)%nat /\
  Forall (fun t : triple => fst (fst t) <> EmptyString)
         (_extract_param_changes_from_diff changed_lines is_json).
Proof.
  unfold _extract_param_changes_from_diff, _extract_json_key_changes.
  destruct is_json; apply flat_map_small;
    intros [[[old_line new_line] a] b]; apply classify_small.
Qed.

Lemma parse_params_from_length (lines : list string) (d : dict) :
  (length (fold_left parse_step lines d) <= length d + length lines)%nat.
Proof.
  revert d. induction lines as [|l lines IH]; intro d; simpl.
  - lia.
  - specialize (IH (parse_step d l)).
    assert (L : (length (parse_step d l) <= S (length d))%nat).
    { unfold parse_step. destruct (parse_line l) as [[k v]|]; [|lia].
      clear. induction d as [|[a b] d IH]; simpl; [lia|].
      destruct (String.eqb a k); simpl; lia. }
    lia.
Qed.

(** X13: the whole-file map has each name once, and no more entries than
    the file has lines. *)
Theorem parse_params_keys_unique (lines : list string) :
  NoDup (keys (_parse_params lines)) /\
  (length (_parse_params lines) <= length lines)%nat.
Proof.
  split.
  - apply parse_params_nodup.
  - apply (parse_params_from_length lines []).
Qed.

Lemma fallback_names (d1 d2 : dict) :
  exists sel,
    map (fun t : triple => fst (fst t)) (fallback_changes d1 d2)
    = map fst (filter sel d1).
Proof.
  exists (fun e : string * string =>
    match dict_get d2 (fst e) with
    | Some v => negb (String.eqb v (snd e))
    | None => false
    end).
  unfold fallback_changes. induction d1 as [|[k w] d1 IH]; simpl.
  - reflexivity.
  - destruct (dict_get d2 k) as [v|]; [|exact IH].
    destruct (negb (v =? w)%string); simpl; [f_equal|]; exact IH.
Qed.

Lemma nodup_map_filter (sel : string * string -> bool) (d : dict) :
  NoDup (map fst d) -> NoDup (map fst (filter sel d)).
Proof.
  induction d as [|e d IH]; simpl; intro H; [constructor|].
  inversion H as [|? ? Hn Hd]; subst. destruct (sel e); simpl; auto.
  constructor; auto. intro Hin. apply Hn.
  apply in_map_iff in Hin. destruct Hin as (x & Ex & Hx).
  apply filter_In in Hx. apply in_map_iff. exists x. tauto.
Qed.

(** X14: in the fallback of two files, no name is reported twice; the
    fallback of the two files taken the other way round reports the same
    names with old and new value exchanged; and a file against itself has
    no change. *)
Theorem fallback_is_symmetric (orig_text mod_text : list string) :
  let forth := fallback_changes (_parse_params orig_text) (_parse_params mod_text) in
  let back := fallback_changes (_parse_params mod_text) (_parse_params orig_text) in
  NoDup (map (fun t : triple => fst (fst t)) forth) /\
  (forall n o v, In (n, o, v) forth <-> In (n, v, o) back) /\
  fallback_changes (_parse_params orig_text) (_parse_params orig_text) = [].
Proof.
  intros forth back. subst forth back. split; [|split].
  - destruct (fallback_names (_parse_params orig_text) (_parse_params mod_text))
      as [sel E].
    rewrite E. apply nodup_map_filter. apply parse_params_nodup.
  - intros n o v.
    rewrite !fallback_in by apply parse_params_nodup.
    split; intros (A & B & C); repeat split; auto.
  - destruct (fallback_changes (_parse_params orig_text) (_parse_params orig_text))
      as [|[[n o] v] rest] eqn:E; [reflexivity|].
    assert (H : In (n, o, v)
                   (fallback_changes (_parse_params orig_text)
                                     (_parse_params orig_text)))
      by (rewrite E; now left).
    apply fallback_in in H; [|apply parse_params_nodup].
    destruct H as (A & B & C). congruence.
Qed.

End ParamMore.

(** * The worker of the comparison runner *)

Module RunnerFacts.
Import Str Re Parsing Models TextComparison Runner Notions.

#[local] Open Scope list_scope.

Section Facts.

Variable read_file : Path -> option bytes.
Variable utf8_decode : bytes -> option string.
Variable utf8_decode_replace : bytes -> string.
Variable json_value : Type.
Variable json_loads : string -> option json_value.
Variable json_dumps : json_value -> Z -> bool -> bool -> string.
Variable unified_diff :
  list string -> list string -> string -> string -> Z -> list string.

Abbreviation work :=
  (worker read_file utf8_decode utf8_decode_replace
     json_loads json_dumps unified_diff).


End Facts.

End RunnerFacts.

(** * The end of a block of braces *)

Module ScannerFacts.
Import Str TextComparison Scanner Notions.

#[local] Open Scope list_scope.

Lemma count_char_absent (a : ascii) (s : string) :
  contains a s = false -> count_char a s = 0.
Proof.
  induction s as [|c s IH]; simpl; [reflexivity|].
  destruct (Ascii.eqb a c); simpl; [discriminate | assumption].
Qed.

Lemma skipn_cons (A : Type) (n : nat) (l t : list A) (x : A) :
  skipn n l = x :: t -> nth_error l n = Some x /\ skipn (S n) l = t.
Proof.
  revert l. induction n as [|n IH]; intros l H.
  - simpl in H. subst l. now split.
  - destruct l as [|y l]; [discriminate|]. simpl in H.
    destruct (IH l H) as [A1 A2]. split; [exact A1|]. exact A2.
Qed.

(** On an index that is not negative the loop is the scan of the lines from
    that index on. *)
Lemma loop_is_scan (lines rest : list string) (i d : Z) (h : bool) :
  0 <= i -> skipn (Z.to_nat i) lines = rest ->
  bounds_loop lines (length rest) i d h = Return (scan rest i d h).
Proof.
  revert i d h. induction rest as [|l rest IH]; intros i d h Hi Hs.
  - reflexivity.
  - destruct (skipn_cons _ _ Hs) as [Hn Hs'].
    simpl. unfold index.
    destruct (0 <=? i) eqn:P; [|apply Z.leb_gt in P; lia].
    rewrite Hn.
    assert (D : (if contains "{" l then d + count_char "{" l else d)
                = d + count_char "{" l).
    { destruct (contains "{" l) eqn:C; [reflexivity|].
      rewrite (count_char_absent _ _ C). lia. }
    rewrite D.
    destruct ((contains "{" l || h)
              && (d + count_char "{" l - count_char "}" l <=? 0))%bool;
      [reflexivity|].
    apply IH; [lia|].
    replace (Z.to_nat (i + 1)) with (S (Z.to_nat i)) by lia. exact Hs'.
Qed.

Lemma opened_in_app (a b : list string) :
  opened_in (a ++ b) = (opened_in a || opened_in b)%bool.
Proof. apply existsb_app. Qed.

Lemma depth_of_app (a b : list string) :
  depth_of (a ++ b) = depth_of a + depth_of b.
Proof. induction a as [|x a IH]; simpl; lia. Qed.

(** The scan returns the first index at which the lines read so far open a
    brace and close all they open. *)
Lemma scan_first (rest pre : list string) (i : Z) :
  let r := scan rest i (depth_of pre) (opened_in pre) in
  (r = -1 /\
   forall k, (k < length rest)%nat -> closes (pre ++ firstn (S k) rest) = false)
  \/
  (exists k, r = i + Z.of_nat k /\ (k < length rest)%nat /\
     closes (pre ++ firstn (S k) rest) = true /\
     forall k', (k' < k)%nat -> closes (pre ++ firstn (S k') rest) = false).
Proof.
  revert pre i. induction rest as [|l rest IH]; intros pre i; simpl.
  - left. split; [reflexivity|]. intros k Hk. lia.
  - assert (Eo : (contains "{" l || opened_in pre)%bool = opened_in (pre ++ [l])).
    { rewrite opened_in_app. simpl. rewrite orb_false_r. apply orb_comm. }
    assert (Ed : depth_of pre + count_char "{" l - count_char "}" l
                 = depth_of (pre ++ [l])).
    { rewrite depth_of_app. simpl. lia. }
    rewrite Eo, Ed.
    destruct (opened_in (pre ++ [l]) && (depth_of (pre ++ [l]) <=? 0))%bool eqn:C.
    + right. exists 0%nat.
      split; [lia|]. split; [lia|]. split; [simpl; exact C|].
      intros k' Hk'. lia.
    + destruct (IH (pre ++ [l]) (i + 1)) as [[R N]|(k & R & Hk & Ck & N)].
      * left. split; [exact R|]. intros k Hk. destruct k as [|k].
        -- simpl. exact C.
        -- specialize (N k ltac:(lia)). rewrite <- app_assoc in N. exact N.
      * right. exists (S k).
        split; [lia|]. split; [lia|]. split.
        -- rewrite <- app_assoc in Ck. exact Ck.
        -- intros k' Hk'. destruct k' as [|k'].
           ++ simpl. exact C.
           ++ specialize (N k' ltac:(lia)). rewrite <- app_assoc in N. exact N.
Qed.

(** X16: from a start index that is not negative, [find_block_bounds]
    returns the first index from which back to the start the lines have an
    opening brace and no more opening than closing braces, and -1 when no
    index is such; it raises nothing, and a result other than -1 lies
    between the start index and the last index. *)
Theorem find_block_bounds_first_close (lines : list string) (start_ln : Z) :
  0 <= start_ln ->
  exists r,
    find_block_bounds lines start_ln = Return r /\
    ((r = -1 /\
      forall j, start_ln <= j < Z.of_nat (length lines) ->
                closes (segment lines start_ln j) = false)
     \/
     (start_ln <= r < Z.of_nat (length lines) /\
      closes (segment lines start_ln r) = true /\
      forall j, start_ln <= j < r ->
                closes (segment lines start_ln j) = false)).
Proof.
  intro Hs. unfold find_block_bounds.
  set (rest := skipn (Z.to_nat start_ln) lines).
  assert (L : Z.to_nat (Z.of_nat (length lines) - start_ln) = length rest).
  { unfold rest. rewrite length_skipn. lia. }
  rewrite L, (@loop_is_scan lines rest start_ln 0 false Hs eq_refl).
  eexists. split; [reflexivity|].
  assert (Seg : forall k, segment lines start_ln (start_ln + Z.of_nat k)
                          = firstn (S k) rest).
  { intro k. unfold segment. fold rest. f_equal. lia. }
  destruct (scan_first rest [] start_ln) as [[R N]|(k & R & Hk & Ck & N)];
    simpl in *.
  - left. split; [exact R|]. intros j Hj.
    replace j with (start_ln + Z.of_nat (Z.to_nat (j - start_ln))) by lia.
    rewrite Seg. apply N. lia.
  - right. rewrite R. split; [lia|]. split.
    + rewrite Seg. exact Ck.
    + intros j Hj.
      replace j with (start_ln + Z.of_nat (Z.to_nat (j - start_ln))) by lia.
      rewrite Seg. apply N. lia.
Qed.

Lemma find_block_bounds_first_close_witness :
  exists r,
    find_block_bounds ["Item(x)"; "{"; "  a { }"; "}"; "}"] 0 = Return r /\
    ((r = -1 /\
      forall j, 0 <= j < 5 ->
        closes (segment ["Item(x)"; "{"; "  a { }"; "}"; "}"] 0 j) = false)
     \/
     (0 <= r < 5 /\
      closes (segment ["Item(x)"; "{"; "  a { }"; "}"; "}"] 0 r) = true /\
      forall j, 0 <= j < r ->
        closes (segment ["Item(x)"; "{"; "  a { }"; "}"; "}"] 0 j) = false)).
Proof.
  apply (@find_block_bounds_first_close
           ["Item(x)"; "{"; "  a { }"; "}"; "}"] 0).
  lia.
Defined.

End ScannerFacts.

(** * The matcher on texts with a known form *)

Module MatchFacts.
Import Str Re Parsing Notions.

#[local] Open Scope list_scope.

(** A greedy repetition that can take the whole of [v] and go on from
    there takes it. *)
Lemma rep_greedy_app (A : Type) (p : ascii -> bool) (v r : string)
    (min : nat) (pv : option ascii)
    (k : option ascii -> string -> option A) (x : A) :
  every p v = true ->
  rep true p (min - String.length v) (last_of pv v) r k = Some x ->
  rep true p min pv (v ++ r)%string k = Some x.
Proof.
  revert min pv. induction v as [|c v IH]; intros min pv E H.
  - simpl in *. now rewrite Nat.sub_0_r in H.
  - simpl in E. apply andb_prop in E. destruct E as [Ec Ev].
    simpl. rewrite Ec.
    rewrite (IH (Nat.pred min) (Some c) Ev); [reflexivity|].
    simpl in H. replace (Nat.pred min - String.length v)%nat
      with (min - S (String.length v))%nat by lia. exact H.
Qed.

(** A lazy repetition goes through [v] when what follows it cannot start
    on a character of [v]. *)
Lemma rep_lazy_app (A : Type) (p q : ascii -> bool) (v r : string)
    (pv : option ascii) (k : option ascii -> string -> option A) :
  every p v = true -> every q v = true ->
  (forall pv' c s, q c = true -> k pv' (String c s) = None) ->
  rep false p 0 pv (v ++ r)%string k = rep false p 0 (last_of pv v) r k.
Proof.
  revert pv. induction v as [|c v IH]; intros pv Ep Eq H.
  - reflexivity.
  - simpl in Ep, Eq. apply andb_prop in Ep. apply andb_prop in Eq.
    destruct Ep as [Pc Pv]. destruct Eq as [Qc Qv].
    simpl. rewrite Pc, (H pv c _ Qc). now apply IH.
Qed.

Lemma length_append (a b : string) :
  String.length (a ++ b)%string = (String.length a + String.length b)%nat.
Proof. induction a as [|c a IH]; simpl; [reflexivity | now rewrite IH]. Qed.

Lemma take_append (v r : string) :
  take (String.length v) (v ++ r)%string = v.
Proof. induction v as [|c v IH]; simpl; [now destruct r | now rewrite IH]. Qed.

(** The text between two positions of which the second is [r]. *)
Lemma matched_append (v r : string) : matched (v ++ r)%string r = v.
Proof.
  unfold matched. rewrite length_append.
  replace (String.length v + String.length r - String.length r)%nat
    with (String.length v) by lia.
  apply take_append.
Qed.

Lemma search_at_start (r : regex) (s : string) (cs : list (nat * string)) :
  run r (mkpos None s []) (fun st => Some (caps st)) = Some cs ->
  search r s = Some cs.
Proof.
  intro H. unfold search. destruct s; simpl; now rewrite H.
Qed.

Lemma every_rev_acc (p : ascii -> bool) (s acc : string) :
  every p s = true -> every p acc = true -> every p (rev_acc s acc) = true.
Proof.
  revert acc. induction s as [|c s IH]; intros acc Hs Ha; simpl in *.
  - exact Ha.
  - apply andb_prop in Hs. destruct Hs as [Hc Hs]. apply IH; [exact Hs|].
    simpl. now rewrite Hc, Ha.
Qed.

Lemma lstrip_nothing (p : ascii -> bool) (s : string) :
  every (fun c => negb (p c)) s = true -> lstrip_by p s = s.
Proof.
  destruct s as [|c s]; simpl; [reflexivity|].
  intro H. apply andb_prop in H. destruct H as [Hc _].
  apply negb_true_iff in Hc. now rewrite Hc.
Qed.

(** A text without white space is its own [strip]. *)
Lemma strip_nothing (s : string) :
  every nonspace s = true -> strip s = s.
Proof.
  intro H. unfold strip, rstrip_by. rewrite (lstrip_nothing isspace s H).
  rewrite lstrip_nothing.
  - apply PipelineFacts.rev_rev.
  - unfold rev. now apply every_rev_acc.
Qed.

Lemma every_weaken (p q : ascii -> bool) (s : string) :
  (forall c, p c = true -> q c = true) -> every p s = true -> every q s = true.
Proof.
  intro H. induction s as [|c s IH]; simpl; [reflexivity|].
  intro E. apply andb_prop in E. destruct E as [Ec Es].
  now rewrite (H c Ec), IH.
Qed.

(** *** The matcher, piece by piece *)

Lemma run_seqs_cons (A : Type) (a : regex) (rs : list regex) (st : pos)
    (k : pos -> option A) :
  run (seqs (a :: rs)) st k = run a st (fun st' => run (seqs rs) st' k).
Proof. reflexivity. Qed.

Lemma run_seqs_nil (A : Type) (st : pos) (k : pos -> option A) :
  run (seqs []) st k = k st.
Proof. reflexivity. Qed.

Lemma chr_is_refl (c : ascii) : chr_is c c = true.
Proof. unfold chr_is. apply Ascii.eqb_refl. Qed.

Lemma run_lit (A : Type) (s r : string) (pv : option ascii)
    (cs : list (nat * string)) (k : pos -> option A) :
  run (lit s) (mkpos pv (s ++ r)%string cs) k = k (mkpos (last_of pv s) r cs).
Proof.
  revert pv. induction s as [|c s IH]; intro pv; simpl.
  - reflexivity.
  - rewrite chr_is_refl. apply IH.
Qed.

Lemma run_chr (A : Type) (p : ascii -> bool) (c : ascii) (r : string)
    (pv : option ascii) (cs : list (nat * string)) (k : pos -> option A) :
  p c = true ->
  run (Chr p) (mkpos pv (String c r) cs) k = k (mkpos (Some c) r cs).
Proof. intro H. simpl. now rewrite H. Qed.

(** A greedy repetition over [v] that stops on the character after it. *)
Lemma run_rep_stop (A : Type) (p : ascii -> bool) (min : nat) (v r : string)
    (c : ascii) (pv : option ascii) (cs : list (nat * string))
    (k : pos -> option A) (x : A) :
  every p v = true -> (min <= String.length v)%nat -> p c = false ->
  k (mkpos (last_of pv v) (String c r) cs) = Some x ->
  run (Rep true min p) (mkpos pv (v ++ String c r)%string cs) k = Some x.
Proof.
  intros E L Pc H. simpl. apply rep_greedy_app; [exact E|].
  replace (min - String.length v)%nat with 0%nat by lia.
  simpl. now rewrite Pc.
Qed.

Lemma run_grp_rep_stop (A : Type) (n : nat) (p : ascii -> bool) (min : nat)
    (v r : string) (c : ascii) (pv : option ascii)
    (cs : list (nat * string)) (k : pos -> option A) (x : A) :
  every p v = true -> (min <= String.length v)%nat -> p c = false ->
  k (mkpos (last_of pv v) (String c r) (set_cap n v cs)) = Some x ->
  run (Grp n (Rep true min p)) (mkpos pv (v ++ String c r)%string cs) k = Some x.
Proof.
  intros E L Pc H.
  change (run (Rep true min p) (mkpos pv (v ++ String c r)%string cs)
            (fun st' => k (mkpos (prev st') (rest st')
               (set_cap n (matched (v ++ String c r)%string (rest st')) (caps st'))))
          = Some x).
  apply run_rep_stop; try assumption.
  simpl. now rewrite matched_append.
Qed.

(** A greedy repetition that could go two characters beyond [v] and comes
    back to the end of [v], what follows it failing further on. *)
Lemma run_grp_rep_back (A : Type) (n : nat) (p : ascii -> bool) (min : nat)
    (v : string) (c1 c2 : ascii) (pv : option ascii)
    (cs : list (nat * string)) (k : pos -> option A) (x : A) :
  every p v = true -> (min <= String.length v)%nat ->
  (forall pv' cs', k (mkpos pv' (String c2 EmptyString) cs') = None) ->
  (forall pv' cs', k (mkpos pv' EmptyString cs') = None) ->
  k (mkpos (last_of pv v) (String c1 (String c2 EmptyString)) (set_cap n v cs))
    = Some x ->
  run (Grp n (Rep true min p))
      (mkpos pv (v ++ String c1 (String c2 EmptyString))%string cs) k
  = Some x.
Proof.
  intros E L F1 F0 H. simpl. apply rep_greedy_app; [exact E|].
  replace (min - String.length v)%nat with 0%nat by lia.
  simpl. rewrite F0, F1.
  destruct (p c1); [destruct (p c2)|]; simpl; rewrite ?F0, ?F1;
    now rewrite matched_append.
Qed.

(** The second alternative, when the first begins with a character the
    text does not begin with. *)
Lemma run_grp_alt_second (A : Type) (n : nat) (q : ascii -> bool)
    (r1 r2 : regex) (c : ascii) (s : string) (pv : option ascii)
    (cs : list (nat * string)) (k : pos -> option A) :
  q c = false ->
  run (Grp n (Alt (Seq (Chr q) r1) r2)) (mkpos pv (String c s) cs) k
  = run (Grp n r2) (mkpos pv (String c s) cs) k.
Proof. intro H. simpl. now rewrite H. Qed.

End MatchFacts.

(** * Lines of the file read back *)

Module RoundTrip.
Import Str Re Parsing Notions MatchFacts.

#[local] Open Scope list_scope.
#[local] Arguments run : simpl never.
#[local] Arguments String.append : simpl never.

Lemma truthy_length (s : string) : truthy s = true -> (1 <= String.length s)%nat.
Proof. destruct s; [discriminate | simpl; lia]. Qed.

Lemma bare_nonspace (s : string) : every bare s = true -> every nonspace s = true.
Proof.
  apply every_weaken. intros c H. unfold bare in H.
  now apply andb_prop in H.
Qed.

Lemma param_line_search (name value : string) :
  truthy name = true -> every (chr_isnot DQ) name = true ->
  truthy value = true -> every bare value = true ->
  search param_re (param_line name value) = Some [(2%nat, value); (1%nat, name)].
Proof.
  intros Tn En Tv Ev. apply search_at_start.
  unfold param_line, param_re.
  rewrite run_seqs_cons, run_lit.
  rewrite run_seqs_cons.
  change (Q ++ name ++ Q ++ ", " ++ value ++ ");")%string
    with (String DQ (name ++ String DQ ("," ++ " " ++ value ++ ");")))%string.
  rewrite run_chr by apply chr_is_refl.
  rewrite run_seqs_cons.
  apply run_grp_rep_stop; [exact En | now apply truthy_length | reflexivity |].
  rewrite run_seqs_cons, run_chr by apply chr_is_refl.
  rewrite run_seqs_cons, run_lit.
  rewrite run_seqs_cons.
  pose proof (bare_nonspace _ Ev) as Nv.
  destruct value as [|c w]; [discriminate|].
  simpl in Ev. apply andb_prop in Ev. destruct Ev as [Bc Bw].
  unfold bare in Bc. apply andb_prop in Bc. destruct Bc as [Sc Qc].
  change (" " ++ String c w ++ ");")%string
    with (" " ++ String c (w ++ ");"))%string.
  unfold spaces at 1.
  apply run_rep_stop;
    [reflexivity | simpl; lia | now apply negb_true_iff in Sc |].
  rewrite run_seqs_cons.
  change (seqs [Chr (chr_is DQ); Rep false 0 dot; Chr (chr_is DQ)])
    with (Seq (Chr (chr_is DQ)) (seqs [Rep false 0 dot; Chr (chr_is DQ)])).
  rewrite run_grp_alt_second by (now apply negb_true_iff in Qc).
  change (String c (w ++ ");"))%string
    with (String c w ++ String ")" (String ";" EmptyString))%string.
  apply run_grp_rep_back;
    [exact Nv | simpl; lia | reflexivity | reflexivity | reflexivity].
Qed.

Lemma unquote_bare (value : string) :
  every bare value = true -> unquote value = value.
Proof.
  intro H. unfold unquote. destruct value as [|c w]; [reflexivity|].
  simpl in H. apply andb_prop in H. destruct H as [Bc _].
  unfold bare in Bc. apply andb_prop in Bc. destruct Bc as [_ Qc].
  unfold chr_isnot in Qc. apply negb_true_iff in Qc.
  change (startswith Q (String c w))
    with (Ascii.eqb DQ c && startswith EmptyString w)%bool.
  now rewrite Qc.
Qed.

Lemma param_line_extract (name value : string) :
  truthy name = true -> every (chr_isnot DQ) name = true ->
  truthy value = true -> every bare value = true ->
  extract_param_from_line (param_line name value) = Some (name, value).
Proof.
  intros Tn En Tv Ev.
  pose proof (param_line_search name value Tn En Tv Ev) as S.
  unfold extract_param_from_line. rewrite S.
  change (group_str 1 [(2%nat, value); (1%nat, name)]) with name.
  change (group_str 2 [(2%nat, value); (1%nat, name)]) with value.
  rewrite strip_nothing by now apply bare_nonspace.
  now rewrite unquote_bare.
Qed.

(** X17: a line [Param(Q name Q, value);] (Q the double quote), with a name
    that is not empty and has no double quote and a value that is not empty
    and has neither white space nor double quote, is read back as that name
    with that value by the line extractor of the diff mode and by the
    whole-file parser alike. *)
Theorem param_line_read_back (name value : string) :
  truthy name = true -> every (chr_isnot DQ) name = true ->
  truthy value = true -> every bare value = true ->
  extract_param_from_line (param_line name value) = Some (name, value) /\
  _parse_params [param_line name value] = [(name, value)].
Proof.
  intros Tn En Tv Ev. split; [now apply param_line_extract|].
  pose proof (param_line_search name value Tn En Tv Ev) as S.
  unfold _parse_params. simpl fold_left. unfold parse_step, parse_line.
  rewrite S.
  change (group_str 1 [(2%nat, value); (1%nat, name)]) with name.
  change (group_str 2 [(2%nat, value); (1%nat, name)]) with value.
  rewrite strip_nothing by now apply bare_nonspace.
  now rewrite unquote_bare.
Qed.

Lemma param_line_read_back_witness :
  extract_param_from_line (param_line "Health" "100") = Some ("Health", "100") /\
  _parse_params [param_line "Health" "100"] = [("Health", "100")].
Proof.
  apply (@param_line_read_back "Health" "100"); reflexivity.
Defined.

(** X18: in the generic mode, the pair of two such lines with the same name
    gives the one change of that name from the old value to the new one
    when the two values differ, and nothing when they are equal, whatever
    the line numbers. *)
Theorem param_pair_gives_change (name old_value new_value : string)
    (old_num new_num : option Z) :
  truthy name = true -> every (chr_isnot DQ) name = true ->
  truthy old_value = true -> every bare old_value = true ->
  truthy new_value = true -> every bare new_value = true ->
  _extract_param_changes_from_diff
    [(Some (param_line name old_value), Some (param_line name new_value),
      old_num, new_num)] false
  = if String.eqb old_value new_value then []
    else [(name, old_value, new_value)].
Proof.
  intros Tn En To Eo Tw Ew.
  pose proof (param_line_extract name old_value Tn En To Eo) as Xo.
  pose proof (param_line_extract name new_value Tn En Tw Ew) as Xn.
  unfold _extract_param_changes_from_diff. simpl flat_map.
  unfold on_side.
  change (truthy (param_line name old_value)) with true.
  change (truthy (param_line name new_value)) with true.
  cbv iota. rewrite Xo, Xn. unfold classify. simpl named. rewrite Tn.
  simpl name_of. rewrite String.eqb_refl. simpl andb.
  simpl option_map. simpl opt_string_eqb.
  destruct (String.eqb old_value new_value); reflexivity.
Qed.

Lemma param_pair_gives_change_witness :
  _extract_param_changes_from_diff
    [(Some (param_line "Health" "100"), Some (param_line "Health" "150"),
      Some 7, None)] false
  = [("Health", "100", "150")].
Proof.
  apply (@param_pair_gives_change "Health" "100" "150" (Some 7) None);
    reflexivity.
Defined.

(** *** A value between double quotes *)

Lemma rev_acc_append (s acc : string) :
  rev_acc s acc = (rev s ++ acc)%string.
Proof.
  unfold rev. revert acc. induction s as [|c s IH]; intro acc;
    [reflexivity|].
  cbn [rev_acc]. rewrite (IH (String c acc)), (IH (String c EmptyString)).
  now rewrite PipelineFacts.append_assoc.
Qed.

Lemma rev_append (a b : string) : rev (a ++ b)%string = (rev b ++ rev a)%string.
Proof.
  induction a as [|c a IH].
  - change (EmptyString ++ b)%string with b.
    change (rev EmptyString) with EmptyString.
    induction (rev b) as [|x r IHr]; [reflexivity|].
    change (String x r ++ EmptyString)%string
      with (String x (r ++ EmptyString))%string.
    now rewrite <- IHr.
  - change (String c a ++ b)%string with (String c (a ++ b)%string).
    unfold rev at 1 3. cbn [rev_acc].
    rewrite !rev_acc_append, IH. now rewrite PipelineFacts.append_assoc.
Qed.

Lemma rev_quoted (v : string) :
  rev (Q ++ v ++ Q)%string = (Q ++ rev v ++ Q)%string.
Proof. rewrite !rev_append. now rewrite PipelineFacts.append_assoc. Qed.

Lemma strip_quoted (v : string) :
  strip (Q ++ v ++ Q)%string = (Q ++ v ++ Q)%string.
Proof.
  unfold strip, rstrip_by.
  change (lstrip_by isspace (Q ++ v ++ Q)%string) with (Q ++ v ++ Q)%string.
  rewrite rev_quoted.
  change (lstrip_by isspace (Q ++ rev v ++ Q)%string)
    with (Q ++ rev v ++ Q)%string.
  now rewrite rev_quoted, PipelineFacts.rev_rev.
Qed.

Lemma unquote_quoted (v : string) : unquote (Q ++ v ++ Q)%string = v.
Proof.
  unfold unquote, endswith.
  change (startswith Q (Q ++ v ++ Q)%string) with true.
  rewrite rev_quoted.
  change (startswith (rev Q) (Q ++ rev v ++ Q)%string) with true.
  cbv iota. unfold slice_1_m1.
  change (tail (Q ++ v ++ Q)%string) with (v ++ Q)%string.
  rewrite rev_append.
  change (tail (rev Q ++ rev v)%string) with (rev v).
  apply PipelineFacts.rev_rev.
Qed.

(** The first alternative of a group, when it matches. *)
Lemma run_grp_alt_first (A : Type) (n : nat) (r1 r2 : regex) (st : pos)
    (k : pos -> option A) (x : A) :
  run r1 st (fun st' =>
    k (mkpos (prev st') (rest st')
             (set_cap n (matched (rest st) (rest st')) (caps st')))) = Some x ->
  run (Grp n (Alt r1 r2)) st k = Some x.
Proof.
  intro H. change (run (Grp n (Alt r1 r2)) st k)
    with (match run r1 st (fun st' =>
            k (mkpos (prev st') (rest st')
                 (set_cap n (matched (rest st) (rest st')) (caps st')))) with
          | Some y => Some y
          | None => run r2 st (fun st' =>
            k (mkpos (prev st') (rest st')
                 (set_cap n (matched (rest st) (rest st')) (caps st'))))
          end).
  now rewrite H.
Qed.

(** The lazy run of any characters up to the first double quote. *)
Lemma run_lazy_to_quote (A : Type) (v r : string) (pv : option ascii)
    (cs : list (nat * string)) (k : pos -> option A) (x : A) :
  every dot v = true -> every (chr_isnot DQ) v = true ->
  k (mkpos (Some DQ) r cs) = Some x ->
  run (seqs [Rep false 0 dot; Chr (chr_is DQ)])
      (mkpos pv (v ++ String DQ r)%string cs) k = Some x.
Proof.
  intros Ed Eq H. rewrite run_seqs_cons.
  change (rep false dot 0 pv (v ++ String DQ r)%string
            (fun pv' s => run (seqs [Chr (chr_is DQ)]) (mkpos pv' s cs) k)
          = Some x).
  rewrite (@rep_lazy_app _ dot (chr_isnot DQ)); try assumption.
  - change (rep false dot 0 (last_of pv v) (String DQ r)
              (fun pv' s => run (seqs [Chr (chr_is DQ)]) (mkpos pv' s cs) k))
      with (match k (mkpos (Some DQ) r cs) with
            | Some y => Some y
            | None =>
                rep false dot 0 (Some DQ) r
                  (fun pv' s => run (seqs [Chr (chr_is DQ)]) (mkpos pv' s cs) k)
            end).
    now rewrite H.
  - intros pv' c s' Hc. unfold chr_isnot in Hc. apply negb_true_iff in Hc.
    rewrite run_seqs_cons.
    change (run (Chr (chr_is DQ)) (mkpos pv' (String c s') cs)
              (fun st' => run (seqs []) st' k))
      with (if Ascii.eqb DQ c
            then run (seqs []) (mkpos (Some c) s' cs) k else None).
    now rewrite Hc.
Qed.

Lemma quoted_param_line_search (name v : string) :
  truthy name = true -> every (chr_isnot DQ) name = true ->
  every dot v = true -> every (chr_isnot DQ) v = true ->
  search param_re (param_line name (Q ++ v ++ Q))
  = Some [(2%nat, (Q ++ v ++ Q)%string); (1%nat, name)].
Proof.
  intros Tn En Dv Qv. apply search_at_start.
  unfold param_line, param_re.
  rewrite run_seqs_cons, run_lit.
  rewrite run_seqs_cons.
  change (Q ++ name ++ Q ++ ", " ++ (Q ++ v ++ Q) ++ ");")%string
    with (String DQ (name ++ String DQ
            ("," ++ " " ++ String DQ ((v ++ Q) ++ ");"))))%string.
  rewrite run_chr by apply chr_is_refl.
  rewrite run_seqs_cons.
  apply run_grp_rep_stop; [exact En | now apply truthy_length | reflexivity |].
  rewrite run_seqs_cons, run_chr by apply chr_is_refl.
  rewrite run_seqs_cons, run_lit.
  rewrite run_seqs_cons.
  unfold spaces at 1.
  apply run_rep_stop; [reflexivity | simpl; lia | reflexivity |].
  rewrite run_seqs_cons.
  apply run_grp_alt_first.
  rewrite run_seqs_cons, run_chr by apply chr_is_refl.
  rewrite PipelineFacts.append_assoc.
  change (Q ++ ");")%string with (String DQ ");").
  apply run_lazy_to_quote; [exact Dv | exact Qv |].
  cbv beta. cbn [rest prev caps].
  replace (matched (String DQ (v ++ String DQ ");")) ");")
    with (Q ++ v ++ Q)%string.
  - reflexivity.
  - symmetry.
    change (String DQ (v ++ String DQ ");"))%string
      with (Q ++ v ++ Q ++ ");")%string.
    rewrite <- (PipelineFacts.append_assoc v Q ");").
    rewrite <- (PipelineFacts.append_assoc Q (v ++ Q) ");").
    apply matched_append.
Qed.

(** X19: a line [Param(Q name Q, Q text Q);] (Q the double quote), with a
    name that is not empty, and neither a double quote in the name or the
    text nor a line feed in the text, is read back as that name with that
    text, the quotes taken off, by the line extractor of the diff mode and
    by the whole-file parser alike; the text may be empty and may hold
    white space. *)
Theorem quoted_param_line_read_back (name text : string) :
  truthy name = true -> every (chr_isnot DQ) name = true ->
  every dot text = true -> every (chr_isnot DQ) text = true ->
  extract_param_from_line (param_line name (Q ++ text ++ Q))
    = Some (name, text) /\
  _parse_params [param_line name (Q ++ text ++ Q)] = [(name, text)].
Proof.
  intros Tn En Dv Qv.
  pose proof (quoted_param_line_search name text Tn En Dv Qv) as S.
  assert (V : unquote (strip (Q ++ text ++ Q)) = text)
    by (rewrite strip_quoted; apply unquote_quoted).
  split.
  - unfold extract_param_from_line. rewrite S.
    change (group_str 1 [(2%nat, (Q ++ text ++ Q)%string); (1%nat, name)])
      with name.
    change (group_str 2 [(2%nat, (Q ++ text ++ Q)%string); (1%nat, name)])
      with (Q ++ text ++ Q)%string.
    now rewrite V.
  - unfold _parse_params. simpl fold_left. unfold parse_step, parse_line.
    rewrite S.
    change (group_str 1 [(2%nat, (Q ++ text ++ Q)%string); (1%nat, name)])
      with name.
    change (group_str 2 [(2%nat, (Q ++ text ++ Q)%string); (1%nat, name)])
      with (Q ++ text ++ Q)%string.
    now rewrite V.
Qed.

Lemma quoted_param_line_read_back_witness :
  extract_param_from_line (param_line "Name" (Q ++ "Long sword" ++ Q))
    = Some ("Name", "Long sword") /\
  _parse_params [param_line "Name" (Q ++ "Long sword" ++ Q)]
    = [("Name", "Long sword")].
Proof.
  apply (@quoted_param_line_read_back "Name" "Long sword"); reflexivity.
Defined.

End RoundTrip.

(** * Function-call lines read back *)

Module CallFacts.
Import Str Re Parsing Notions MatchFacts.

#[local] Open Scope list_scope.
#[local] Arguments run : simpl never.
#[local] Arguments String.append : simpl never.
#[local] Arguments Ascii.eqb : simpl never.

Lemma every_append (p : ascii -> bool) (a b : string) :
  every p (a ++ b)%string = (every p a && every p b)%bool.
Proof.
  induction a as [|c a IH]; [reflexivity|].
  change (String c a ++ b)%string with (String c (a ++ b)%string).
  simpl. now rewrite IH, andb_assoc.
Qed.

Lemma run_lit_prefix (A : Type) (s t : string) (pv : option ascii)
    (cs : list (nat * string)) (k : pos -> option A) :
  run (lit s) (mkpos pv t cs) k =
  match strip_prefix s t with
  | Some t' => k (mkpos (last_of pv s) t' cs)
  | None => None
  end.
Proof.
  revert t pv. induction s as [|a s IH]; intros t pv.
  - reflexivity.
  - destruct t as [|b t]; [reflexivity|].
    change (run (lit (String a s)) (mkpos pv (String b t) cs) k)
      with (if chr_is a b then run (lit s) (mkpos (Some b) t cs) k else None).
    unfold chr_is. simpl strip_prefix.
    destruct (Ascii.eqb_spec a b) as [->|]; [apply IH | reflexivity].
Qed.

Lemma strip_prefix_every (p : ascii -> bool) (s t t' : string) :
  strip_prefix s t = Some t' -> every p t = true -> every p t' = true.
Proof.
  revert t. induction s as [|a s IH]; intros t H E.
  - simpl in H. now injection H as <-.
  - destruct t as [|b t]; [discriminate|]. simpl in H.
    destruct (Ascii.eqb a b); [|discriminate].
    simpl in E. apply andb_prop in E. now apply (IH t).
Qed.

(** A text without a double quote has no match of the [Param] pattern. *)
Lemma no_quote_no_param (s : string) (pv : option ascii) :
  every (chr_isnot DQ) s = true -> search_from param_re pv s = None.
Proof.
  revert pv. induction s as [|c s IH]; intros pv E.
  - reflexivity.
  - assert (R : forall A (k : pos -> option A),
              run param_re (mkpos pv (String c s) []) k = None).
    { intros A k. unfold param_re. rewrite run_seqs_cons, run_lit_prefix.
      destruct (strip_prefix "Param(" (String c s)) as [t'|] eqn:P;
        [|reflexivity].
      pose proof (strip_prefix_every _ _ _ P E) as E'.
      rewrite run_seqs_cons. destruct t' as [|b t']; [reflexivity|].
      simpl in E'. apply andb_prop in E'. destruct E' as [Eb _].
      unfold chr_isnot in Eb. apply negb_true_iff in Eb.
      change (run (Chr (chr_is DQ)) (mkpos (last_of pv "Param(") (String b t') [])
                (fun st' => run (seqs
                   [Grp 1 (Rep true 1 (chr_isnot DQ)); Chr (chr_is DQ); lit ",";
                    spaces;
                    Grp 2 (Alt (seqs [Chr (chr_is DQ); Rep false 0 dot;
                                      Chr (chr_is DQ)])
                               (Rep true 1 nonspace));
                    lit ")"; spaces; lit ";"]) st' k))
        with (if Ascii.eqb DQ b
              then run (seqs
                   [Grp 1 (Rep true 1 (chr_isnot DQ)); Chr (chr_is DQ); lit ",";
                    spaces;
                    Grp 2 (Alt (seqs [Chr (chr_is DQ); Rep false 0 dot;
                                      Chr (chr_is DQ)])
                               (Rep true 1 nonspace));
                    lit ")"; spaces; lit ";"]) (mkpos (Some b) t' []) k
              else None).
      now rewrite Eb. }
    simpl in E. apply andb_prop in E. destruct E as [_ Es].
    change (search_from param_re pv (String c s))
      with (match run param_re (mkpos pv (String c s) [])
                    (fun st => Some (caps st)) with
            | Some cs => Some cs
            | None => search_from param_re (Some c) s
            end).
    rewrite R. now apply IH.
Qed.

Lemma append_cons (c : ascii) (a b : string) :
  (String c a ++ b)%string = String c (a ++ b)%string.
Proof. reflexivity. Qed.

Lemma append_nil (b : string) : (EmptyString ++ b)%string = b.
Proof. reflexivity. Qed.

Lemma word_is_plain (c : ascii) :
  isword c = true ->
  isspace c = false /\ Ascii.eqb DQ c = false /\ isword "(" = false /\
  c <> "("%char.
Proof.
  destruct c as [[] [] [] [] [] [] [] []]; vm_compute; intro H;
    try discriminate; repeat split; discriminate.
Qed.

(** A name other than [Param] passes the look-ahead. *)
Lemma not_param_ahead (A : Type) (name r : string) (pv : option ascii)
    (cs : list (nat * string)) (k : pos -> option A) :
  every isword name = true -> name <> "Param" ->
  run (NegAhead (Seq (lit "Param") WordB))
      (mkpos pv (name ++ String "(" r)%string cs) k
  = k (mkpos pv (name ++ String "(" r)%string cs).
Proof.
  intros E N.
  change (run (NegAhead (Seq (lit "Param") WordB))
            (mkpos pv (name ++ String "(" r)%string cs) k)
    with (match run (lit "Param") (mkpos pv (name ++ String "(" r)%string cs)
                  (fun st' => run WordB st' (fun st'' => Some st'')) with
          | Some _ => None
          | None => k (mkpos pv (name ++ String "(" r)%string cs)
          end).
  rewrite run_lit_prefix.
  assert (X : match strip_prefix "Param" (name ++ String "(" r)%string with
              | Some t' =>
                  run WordB (mkpos (last_of pv "Param") t' cs)
                      (fun st'' => Some st'')
              | None => None
              end = None).
  { destruct name as [|c1 [|c2 [|c3 [|c4 [|c5 n]]]]];
      rewrite ?append_cons, ?append_nil; cbn [strip_prefix];
      repeat match goal with
      | |- context [Ascii.eqb ?x ?y] =>
          destruct (Ascii.eqb_spec x y); try discriminate
      end; try reflexivity; subst.
    destruct n as [|c6 n]; [congruence|].
    rewrite append_cons. simpl in E.
    repeat (apply andb_prop in E; destruct E as [? E]).
    unfold run. cbn [prev rest last_of word_at next_char].
    replace (isword c6) with true by congruence. reflexivity. }
  now rewrite X.
Qed.

Lemma run_rep_none (A : Type) (p : ascii -> bool) (c : ascii) (r : string)
    (pv : option ascii) (cs : list (nat * string)) (k : pos -> option A)
    (x : A) :
  p c = false ->
  k (mkpos pv (String c r) cs) = Some x ->
  run (Rep true 0 p) (mkpos pv (String c r) cs) k = Some x.
Proof.
  intros Pc H.
  change (String c r) with (EmptyString ++ String c r)%string.
  apply run_rep_stop; [reflexivity | simpl; lia | exact Pc | exact H].
Qed.

(** A lazy group over [v] that ends where what follows it first matches. *)
Lemma run_grp_lazy_stop (A : Type) (n : nat) (p q : ascii -> bool)
    (v r : string) (c0 : ascii) (pv : option ascii)
    (cs : list (nat * string)) (k : pos -> option A) (x : A) :
  every p v = true -> every q v = true ->
  (forall pv' c s cs', q c = true -> k (mkpos pv' (String c s) cs') = None) ->
  k (mkpos (last_of pv v) (String c0 r) (set_cap n v cs)) = Some x ->
  run (Grp n (Rep false 0 p)) (mkpos pv (v ++ String c0 r)%string cs) k = Some x.
Proof.
  intros Ep Eq F H.
  change (rep false p 0 pv (v ++ String c0 r)%string
            (fun pv' s => k (mkpos pv' s
               (set_cap n (matched (v ++ String c0 r)%string s) cs)))
          = Some x).
  rewrite (@rep_lazy_app _ p q); try assumption.
  - cbn [rep]. rewrite matched_append, H. now destruct (p c0).
  - intros pv' c s' Hc. now apply F.
Qed.

Lemma plain_arg_parts (v : string) :
  every plain_arg v = true ->
  every dot v = true /\ every (chr_isnot ")") v = true /\
  every nonspace v = true /\ every (chr_isnot DQ) v = true /\
  contains "," v = false.
Proof.
  induction v as [|c v IH]; intro H; [repeat split|].
  simpl in H. apply andb_prop in H. destruct H as [Hc Hv].
  destruct (IH Hv) as (A1 & A2 & A3 & A4 & A5).
  unfold plain_arg in Hc.
  repeat (apply andb_prop in Hc; destruct Hc as [Hc ?]).
  simpl. rewrite A1, A2, A3, A4, A5, Hc.
  assert (D : dot c = true).
  { unfold dot. unfold nonspace in Hc.
    destruct (Ascii.eqb_spec c LF) as [->|]; [discriminate | reflexivity]. }
  rewrite D. unfold chr_isnot in *.
  repeat match goal with
  | H : negb ?b = true |- _ => apply negb_true_iff in H; rewrite H
  end.
  repeat split.
Qed.

Lemma call_args_search (name value closing : string) :
  truthy name = true -> every isword name = true -> name <> "Param" ->
  every dot value = true -> every (chr_isnot ")") value = true ->
  (forall pv cs,
     run (seqs [lit ")"; spaces; Alt (lit ";") (lit "{")])
         (mkpos pv (String ")" closing) cs) (fun st => Some (caps st))
     = Some cs) ->
  search prop_re (call_line name value closing)
  = Some [(2%nat, value); (1%nat, name)].
Proof.
  intros Tn En Nn Vd Vp Tail. apply search_at_start.
  unfold call_line, prop_re.
  rewrite run_seqs_cons.
  change (run Bol (mkpos None (name ++ "(" ++ value ++ ")" ++ closing)%string [])
            (fun st' => run (seqs
               [spaces; NegAhead (Seq (lit "Param") WordB);
                Grp 1 (Rep true 1 isword); spaces; lit "(";
                Grp 2 (Rep false 0 dot); lit ")"; spaces;
                Alt (lit ";") (lit "{")]) st' (fun st => Some (caps st))))
    with (run (seqs
               [spaces; NegAhead (Seq (lit "Param") WordB);
                Grp 1 (Rep true 1 isword); spaces; lit "(";
                Grp 2 (Rep false 0 dot); lit ")"; spaces;
                Alt (lit ";") (lit "{")])
              (mkpos None (name ++ "(" ++ value ++ ")" ++ closing)%string [])
              (fun st => Some (caps st))).
  rewrite run_seqs_cons.
  destruct name as [|c n] eqn:Ename; [discriminate|].
  assert (Wc : isword c = true)
    by (simpl in En; now apply andb_prop in En).
  destruct (word_is_plain c Wc) as (Sc & _ & _ & _).
  rewrite append_cons. unfold spaces at 1.
  apply run_rep_none; [exact Sc|].
  rewrite run_seqs_cons, <- append_cons.
  change ("(" ++ value ++ ")" ++ closing)%string
    with (String "(" (value ++ String ")" closing))%string.
  rewrite not_param_ahead by assumption.
  rewrite run_seqs_cons.
  apply run_grp_rep_stop; [exact En | simpl; lia | reflexivity |].
  rewrite run_seqs_cons. unfold spaces at 1.
  apply run_rep_none; [reflexivity|].
  rewrite run_seqs_cons.
  change (String "(" (value ++ String ")" closing))%string
    with ("(" ++ (value ++ String ")" closing))%string.
  rewrite run_lit.
  rewrite run_seqs_cons.
  apply (@run_grp_lazy_stop _ 2 dot (chr_isnot ")")); try assumption.
  - intros pv' c' s' cs' Hc. unfold chr_isnot in Hc.
    apply negb_true_iff in Hc.
    rewrite run_seqs_cons, run_lit_prefix. simpl strip_prefix.
    now rewrite Hc.
  - apply Tail.
Qed.

Lemma call_line_search (name value closing : string) :
  truthy name = true -> every isword name = true -> name <> "Param" ->
  every plain_arg value = true ->
  (forall pv cs,
     run (seqs [lit ")"; spaces; Alt (lit ";") (lit "{")])
         (mkpos pv (String ")" closing) cs) (fun st => Some (caps st))
     = Some cs) ->
  search prop_re (call_line name value closing)
  = Some [(2%nat, value); (1%nat, name)].
Proof.
  intros Tn En Nn Ev Tail.
  destruct (plain_arg_parts _ Ev) as (Vd & Vp & _).
  now apply call_args_search.
Qed.

Lemma unquote_noquote (v : string) :
  every (chr_isnot DQ) v = true -> unquote v = v.
Proof.
  intro H. unfold unquote. destruct v as [|c w]; [reflexivity|].
  simpl in H. apply andb_prop in H. destruct H as [Qc _].
  unfold chr_isnot in Qc. apply negb_true_iff in Qc.
  change (startswith Q (String c w))
    with (Ascii.eqb DQ c && startswith EmptyString w)%bool.
  now rewrite Qc.
Qed.

Lemma word_no_quote (name : string) :
  every isword name = true -> every (chr_isnot DQ) name = true.
Proof.
  apply every_weaken. intros c H.
  destruct (word_is_plain c H) as (_ & Qc & _). unfold chr_isnot.
  now rewrite Qc.
Qed.

Lemma call_line_no_quote (name value closing : string) :
  every isword name = true -> every plain_arg value = true ->
  every (chr_isnot DQ) closing = true ->
  every (chr_isnot DQ) (call_line name value closing) = true.
Proof.
  intros En Ev Ec. destruct (plain_arg_parts _ Ev) as (_ & _ & _ & Vq & _).
  unfold call_line. rewrite !every_append, (word_no_quote _ En), Vq, Ec.
  reflexivity.
Qed.

Lemma call_line_extract (name value closing : string) :
  truthy name = true -> every isword name = true -> name <> "Param" ->
  every plain_arg value = true ->
  every (chr_isnot DQ) closing = true ->
  (forall pv cs,
     run (seqs [lit ")"; spaces; Alt (lit ";") (lit "{")])
         (mkpos pv (String ")" closing) cs) (fun st => Some (caps st))
     = Some cs) ->
  extract_param_from_line (call_line name value closing) = Some (name, value) /\
  parse_line (call_line name value closing) = Some (name, value).
Proof.
  intros Tn En Nn Ev Ec Tail.
  pose proof (@call_line_search name value closing Tn En Nn Ev Tail) as S.
  pose proof (@no_quote_no_param _ None
                (@call_line_no_quote name value closing En Ev Ec)) as P.
  fold (search param_re (call_line name value closing)) in P.
  destruct (plain_arg_parts _ Ev) as (_ & _ & Vs & Vq & Vc).
  assert (T : truthy (call_line name value closing) = true).
  { unfold call_line. destruct name; [discriminate | reflexivity]. }
  split.
  - unfold extract_param_from_line. rewrite T, P, S. cbv iota. simpl negb.
    cbv iota.
    change (group_str 1 [(2%nat, value); (1%nat, name)]) with name.
    change (group_str 2 [(2%nat, value); (1%nat, name)]) with value.
    rewrite (strip_nothing _ Vs). unfold last_argument. rewrite Vc.
    now rewrite (unquote_noquote _ Vq).
  - unfold parse_line. rewrite P, S.
    change (group_str 1 [(2%nat, value); (1%nat, name)]) with name.
    change (group_str 2 [(2%nat, value); (1%nat, name)]) with value.
    rewrite (strip_nothing _ Vs). now rewrite (unquote_noquote _ Vq).
Qed.

(** X20: a line [name(value);] or [name(value) {], with a name made of
    word characters that is not empty and is not [Param], and a value
    without white space, double quote, closing parenthesis or comma (it may
    be empty), is read back as that name with that value by the line
    extractor of the diff mode and by the whole-file parser alike. *)
Theorem call_line_read_back (name value : string) :
  truthy name = true -> every isword name = true -> name <> "Param" ->
  every plain_arg value = true ->
  extract_param_from_line (call_line name value ";") = Some (name, value) /\
  extract_param_from_line (call_line name value " {") = Some (name, value) /\
  _parse_params [call_line name value ";"] = [(name, value)] /\
  _parse_params [call_line name value " {"] = [(name, value)].
Proof.
  intros Tn En Nn Ev.
  destruct (@call_line_extract name value ";" Tn En Nn Ev eq_refl) as [A1 A2];
    [reflexivity|].
  destruct (@call_line_extract name value " {" Tn En Nn Ev eq_refl) as [B1 B2];
    [reflexivity|].
  repeat split; try assumption;
    unfold _parse_params; simpl fold_left; unfold parse_step;
    rewrite ?A2, ?B2; reflexivity.
Qed.

Lemma call_line_read_back_witness :
  extract_param_from_line (call_line "Speed" "0.25" ";") = Some ("Speed", "0.25") /\
  extract_param_from_line (call_line "Speed" "0.25" " {") = Some ("Speed", "0.25") /\
  _parse_params [call_line "Speed" "0.25" ";"] = [("Speed", "0.25")] /\
  _parse_params [call_line "Speed" "0.25" " {"] = [("Speed", "0.25")].
Proof.
  apply (@call_line_read_back "Speed" "0.25"); try reflexivity. discriminate.
Defined.

(** *** Two arguments *)

Lemma split_go_piece (sep : ascii) (v r cur : string) :
  every (chr_isnot sep) v = true ->
  split_go sep cur (v ++ String sep r)%string
  = rev (rev_acc v cur) :: split_go sep EmptyString r.
Proof.
  revert cur. induction v as [|c v IH]; intros cur E.
  - rewrite append_nil. simpl. now rewrite Ascii.eqb_refl.
  - simpl in E. apply andb_prop in E. destruct E as [Ec Ev].
    unfold chr_isnot in Ec. apply negb_true_iff in Ec.
    rewrite append_cons. simpl. rewrite Ascii.eqb_sym, Ec. now apply IH.
Qed.

Lemma split_go_last (sep : ascii) (v cur : string) :
  every (chr_isnot sep) v = true ->
  split_go sep cur v = [rev (rev_acc v cur)].
Proof.
  revert cur. induction v as [|c v IH]; intros cur E.
  - reflexivity.
  - simpl in E. apply andb_prop in E. destruct E as [Ec Ev].
    unfold chr_isnot in Ec. apply negb_true_iff in Ec.
    simpl. rewrite Ascii.eqb_sym, Ec. now apply IH.
Qed.

Lemma contains_append (a : ascii) (x y : string) :
  contains a (x ++ y)%string = (contains a x || contains a y)%bool.
Proof.
  induction x as [|c x IH]; [reflexivity|].
  rewrite append_cons. simpl. now rewrite IH, orb_assoc.
Qed.

Lemma rev_nonspace_head (v : string) :
  truthy v = true -> every nonspace v = true ->
  exists c w, rev v = String c w /\ isspace c = false.
Proof.
  intros T E.
  assert (R : every nonspace (rev v) = true)
    by (unfold rev; now apply every_rev_acc).
  destruct (rev v) as [|c w] eqn:Er.
  - apply (f_equal rev) in Er. rewrite PipelineFacts.rev_rev in Er.
    subst v. discriminate.
  - exists c, w. split; [reflexivity|]. simpl in R.
    apply andb_prop in R. destruct R as [Rc _]. now apply negb_true_iff in Rc.
Qed.

(** A text that begins and ends with characters that are not white space
    is its own [strip]. *)
Lemma strip_two_args (v1 v2 : string) :
  truthy v1 = true -> every nonspace v1 = true ->
  truthy v2 = true -> every nonspace v2 = true ->
  strip (two_args v1 v2) = two_args v1 v2.
Proof.
  intros T1 E1 T2 E2. unfold strip, rstrip_by, two_args.
  destruct v1 as [|c1 w1]; [discriminate|].
  simpl in E1. apply andb_prop in E1. destruct E1 as [N1 _].
  apply negb_true_iff in N1.
  rewrite append_cons. cbn [lstrip_by]. rewrite N1, <- append_cons.
  rewrite RoundTrip.rev_append, RoundTrip.rev_append.
  destruct (rev_nonspace_head v2 T2 E2) as (c & w & Er & Nc).
  rewrite Er, !append_cons. cbn [lstrip_by]. rewrite Nc.
  rewrite <- !append_cons, <- Er, <- !RoundTrip.rev_append.
  apply PipelineFacts.rev_rev.
Qed.

Lemma last_argument_two (v1 v2 : string) :
  every plain_arg v1 = true -> truthy v2 = true -> every plain_arg v2 = true ->
  last_argument (two_args v1 v2) = v2.
Proof.
  intros E1 T2 E2.
  destruct (plain_arg_parts _ E1) as (_ & _ & _ & _ & C1).
  destruct (plain_arg_parts _ E2) as (_ & _ & S2 & _ & C2).
  assert (K : forall v, contains "," v = false -> every (chr_isnot ",") v = true).
  { induction v as [|c v IH]; [reflexivity|]. simpl. intro H.
    apply orb_false_iff in H. destruct H as [Hc Hv].
    apply andb_true_intro. split; [|now apply IH].
    unfold chr_isnot. now rewrite Hc. }
  unfold last_argument, two_args.
  rewrite contains_append. change (contains "," (", " ++ v2)%string) with true.
  rewrite orb_true_r. unfold split.
  change (v1 ++ ", " ++ v2)%string with (v1 ++ String "," (" " ++ v2))%string.
  rewrite split_go_piece by now apply K.
  rewrite split_go_last
    by (change (" " ++ v2)%string with (String " " v2); simpl;
        now rewrite (K _ C2)).
  cbn [map last_part last].
  fold (rev (" " ++ v2)%string). rewrite PipelineFacts.rev_rev.
  assert (X : strip (" " ++ v2)%string = v2).
  { unfold strip. change (lstrip_by isspace (" " ++ v2)%string)
      with (lstrip_by isspace v2).
    fold (strip v2). now apply strip_nothing. }
  rewrite X. now apply strip_nothing.
Qed.

(** X21: on a line [name(first, second);] with two plain arguments that are
    not empty (the name as in X20), the line extractor of the diff mode
    gives the name with the second argument only, and the whole-file parser
    the name with the text [first, second] of both. *)
Theorem two_arguments_two_readings (name first second : string) :
  truthy name = true -> every isword name = true -> name <> "Param" ->
  truthy first = true -> every plain_arg first = true ->
  truthy second = true -> every plain_arg second = true ->
  extract_param_from_line (call_line name (two_args first second) ";")
    = Some (name, second) /\
  _parse_params [call_line name (two_args first second) ";"]
    = [(name, two_args first second)].
Proof.
  intros Tn En Nn T1 E1 T2 E2.
  destruct (plain_arg_parts _ E1) as (D1 & P1 & S1 & Q1 & _).
  destruct (plain_arg_parts _ E2) as (D2 & P2 & S2 & Q2 & _).
  assert (Vd : every dot (two_args first second) = true)
    by (unfold two_args; now rewrite !every_append, D1, D2).
  assert (Vp : every (chr_isnot ")") (two_args first second) = true)
    by (unfold two_args; now rewrite !every_append, P1, P2).
  assert (Vq : every (chr_isnot DQ) (two_args first second) = true)
    by (unfold two_args; now rewrite !every_append, Q1, Q2).
  assert (Tail : forall pv cs,
            run (seqs [lit ")"; spaces; Alt (lit ";") (lit "{")])
                (mkpos pv (String ")" ";") cs) (fun st => Some (caps st))
            = Some cs) by reflexivity.
  pose proof (@call_args_search name (two_args first second) ";"
                Tn En Nn Vd Vp Tail) as S.
  assert (P : search param_re (call_line name (two_args first second) ";")
              = None).
  { apply no_quote_no_param. unfold call_line.
    now rewrite !every_append, (word_no_quote _ En), Vq. }
  assert (T : truthy (call_line name (two_args first second) ";") = true).
  { unfold call_line. destruct name; [discriminate | reflexivity]. }
  split.
  - unfold extract_param_from_line. rewrite T, P, S. cbv iota. simpl negb.
    cbv iota.
    change (group_str 1 [(2%nat, two_args first second); (1%nat, name)])
      with name.
    change (group_str 2 [(2%nat, two_args first second); (1%nat, name)])
      with (two_args first second).
    rewrite (strip_two_args first second T1 S1 T2 S2).
    rewrite (last_argument_two first second E1 T2 E2).
    now rewrite (unquote_noquote _ Q2).
  - unfold _parse_params. simpl fold_left. unfold parse_step, parse_line.
    rewrite P, S.
    change (group_str 1 [(2%nat, two_args first second); (1%nat, name)])
      with name.
    change (group_str 2 [(2%nat, two_args first second); (1%nat, name)])
      with (two_args first second).
    rewrite (strip_two_args first second T1 S1 T2 S2).
    now rewrite (unquote_noquote _ Vq).
Qed.

Lemma two_arguments_two_readings_witness :
  extract_param_from_line (call_line "range" (two_args "10" "25") ";")
    = Some ("range", "25") /\
  _parse_params [call_line "range" (two_args "10" "25") ";"]
    = [("range", two_args "10" "25")].
Proof.
  apply (@two_arguments_two_readings "range" "10" "25");
    try reflexivity. discriminate.
Defined.

End CallFacts.

(** * Texts a pattern cannot match *)

Module NoMatch.
Import Str Re Parsing Notions MatchFacts.

#[local] Open Scope list_scope.

Section Closed.

(** A class of characters, and what follows a part of a pattern failing
    wherever the text left is made of that class. *)
Variable q : ascii -> bool.
Variable A : Type.

Lemma rep_fails (greedy : bool) (p : ascii -> bool) (s : string) (min : nat)
    (pv : option ascii) (k : option ascii -> string -> option A) :
  (forall pv' s', every q s' = true -> k pv' s' = None) ->
  every q s = true ->
  rep greedy p min pv s k = None.
Proof.
  intro F. revert min pv. induction s as [|c s IH]; intros min pv E.
  - simpl. destruct min; [now apply F | reflexivity].
  - assert (Es : every q s = true)
      by (simpl in E; now apply andb_prop in E).
    assert (Stop : match min with O => k pv (String c s) | S _ => None end = None)
      by (destruct min; [now apply F | reflexivity]).
    simpl. destruct (p c); [|exact Stop].
    destruct greedy.
    + rewrite (IH _ _ Es). exact Stop.
    + rewrite Stop. now apply IH.
Qed.

(** Whatever a pattern does, it ends by asking what follows it, on a text
    that is an end of the text it started on. *)
Lemma run_fails (r : regex) :
  forall (st : pos) (k : pos -> option A),
  (forall st', every q (rest st') = true -> k st' = None) ->
  every q (rest st) = true -> run r st k = None.
Proof.
  induction r as [|p|r1 IH1 r2 IH2|r1 IH1 r2 IH2|g m p|n r1 IH1|r1 IH1| | |];
    intros st k F E; simpl.
  - now apply F.
  - destruct (rest st) as [|c s] eqn:R; [reflexivity|].
    destruct (p c); [|reflexivity]. apply F. simpl in *.
    now apply andb_prop in E.
  - apply IH1; [|exact E]. intros st' E'. now apply IH2.
  - rewrite (IH1 _ _ F E). now apply IH2.
  - apply rep_fails; [|exact E]. intros pv' s' E'. now apply F.
  - apply IH1; [|exact E]. intros st' E'. now apply F.
  - destruct (run r1 st (fun st' => Some st')); [reflexivity | now apply F].
  - destruct (prev st); [reflexivity | now apply F].
  - destruct (rest st) as [|c [|c1 s]] eqn:R; try reflexivity.
    + apply F. now rewrite R.
    + destruct (Ascii.eqb c LF); [|reflexivity]. apply F. now rewrite R.
  - destruct (xorb _ _); [now apply F | reflexivity].
Qed.

End Closed.

End NoMatch.

(** * INI lines read back *)

Module IniFacts.
Import Str Re Parsing Notions MatchFacts CallFacts.

#[local] Open Scope list_scope.
#[local] Arguments run : simpl never.
#[local] Arguments String.append : simpl never.
#[local] Arguments Ascii.eqb : simpl never.

(** A text without an opening parenthesis has no match of the function-call
    pattern. *)
Lemma no_paren_no_prop (s : string) (pv : option ascii) :
  every (chr_isnot "(") s = true -> search_from prop_re pv s = None.
Proof.
  revert pv. induction s as [|c s IH]; intros pv E.
  - destruct pv; reflexivity.
  - assert (R : run prop_re (mkpos pv (String c s) [])
                    (fun st => Some (caps st)) = None).
    { change (run (Seq Bol (Seq spaces (Seq (NegAhead (Seq (lit "Param") WordB))
                     (Seq (Grp 1 (Rep true 1 isword)) spaces))))
                (mkpos pv (String c s) [])
                (fun st' => run (seqs [lit "("; Grp 2 (Rep false 0 dot);
                                       lit ")"; spaces; Alt (lit ";") (lit "{")])
                              st' (fun st => Some (caps st))) = None).
      apply (@NoMatch.run_fails (chr_isnot "(")); [|exact E].
      intros [pv' r' cs'] E'. cbn [rest] in E'.
      rewrite run_seqs_cons, run_lit_prefix.
      destruct r' as [|b r']; [reflexivity|]. simpl in E'.
      apply andb_prop in E'. destruct E' as [Eb _].
      unfold chr_isnot in Eb. apply negb_true_iff in Eb.
      cbn [strip_prefix]. now rewrite Eb. }
    simpl in E. apply andb_prop in E. destruct E as [_ Es].
    change (search_from prop_re pv (String c s))
      with (match run prop_re (mkpos pv (String c s) [])
                    (fun st => Some (caps st)) with
            | Some cs => Some cs
            | None => search_from prop_re (Some c) s
            end).
    rewrite R. now apply IH.
Qed.

Lemma append_nil_r (s : string) : (s ++ EmptyString)%string = s.
Proof.
  induction s as [|c s IH]; [reflexivity|]. now rewrite append_cons, IH.
Qed.

Lemma matched_all (s : string) : matched s EmptyString = s.
Proof.
  rewrite <- (append_nil_r s) at 1. apply matched_append.
Qed.

(** A lazy group of at least one character that ends where what follows it
    first matches: before a character, or at the end of the text. *)
Lemma run_grp_lazy1 (A : Type) (n : nat) (p q : ascii -> bool)
    (c : ascii) (v r : string) (pv : option ascii)
    (cs : list (nat * string)) (k : pos -> option A) (x : A) :
  p c = true -> every p v = true -> every q v = true ->
  (forall pv' c' s cs', q c' = true -> k (mkpos pv' (String c' s) cs') = None) ->
  k (mkpos (last_of (Some c) v) r (set_cap n (String c v) cs)) = Some x ->
  run (Grp n (Rep false 1 p)) (mkpos pv (String c v ++ r)%string cs) k = Some x.
Proof.
  intros Pc Ep Eq F H.
  change (rep false p 1 pv (String c v ++ r)%string
            (fun pv' s => k (mkpos pv' s
               (set_cap n (matched (String c v ++ r)%string s) cs)))
          = Some x).
  rewrite append_cons. cbn [rep Nat.pred]. rewrite Pc.
  rewrite (@rep_lazy_app _ p q); try assumption.
  - rewrite <- append_cons.
    assert (S : rep false p 0 (last_of (Some c) v) r
                  (fun pv' s => k (mkpos pv' s
                     (set_cap n (matched (String c v ++ r)%string s) cs)))
                = Some x); [|exact S].
    destruct r as [|c0 r]; cbn [rep]; rewrite matched_append, H;
      [reflexivity | now destruct (p c0)].
  - intros pv' c' s' Hc. now apply F.
Qed.

Lemma word_is_key (c : ascii) :
  isword c = true ->
  ini_key_char c = true /\ Ascii.eqb "=" c = false /\ nonspace c = true.
Proof.
  destruct c as [[] [] [] [] [] [] [] []]; vm_compute; intro H;
    try discriminate; repeat split.
Qed.

Lemma space_is_plain (c : ascii) :
  isspace c = true ->
  chr_isnot DQ c = true /\ chr_isnot "(" c = true.
Proof.
  destruct c as [[] [] [] [] [] [] [] []]; vm_compute; intro H;
    try discriminate; repeat split.
Qed.

(** After a value without white space, the end of the pattern matches at
    the end of the text and nowhere before. *)
Lemma ini_tail_fails (A : Type) (c : ascii) (s : string) (pv : option ascii)
    (cs : list (nat * string)) (k : pos -> option A) :
  isspace c = false ->
  run (seqs [spaces; Eol]) (mkpos pv (String c s) cs) k = None.
Proof.
  intro Hc. unfold seqs, spaces, run. cbn [rep prev rest caps].
  rewrite Hc. destruct s as [|c' s]; [|reflexivity].
  destruct (Ascii.eqb_spec c LF) as [->|]; [discriminate | reflexivity].
Qed.

Lemma run_grp_lazy1_end (A : Type) (n : nat) (p q : ascii -> bool)
    (c : ascii) (v : string) (pv : option ascii)
    (cs : list (nat * string)) (k : pos -> option A) (x : A) :
  p c = true -> every p v = true -> every q v = true ->
  (forall pv' c' s cs', q c' = true -> k (mkpos pv' (String c' s) cs') = None) ->
  k (mkpos (last_of (Some c) v) EmptyString (set_cap n (String c v) cs))
    = Some x ->
  run (Grp n (Rep false 1 p)) (mkpos pv (String c v) cs) k = Some x.
Proof.
  intros Pc Ep Eq F H.
  rewrite <- (append_nil_r (String c v)).
  now apply (@run_grp_lazy1 _ n p q).
Qed.

Lemma ini_mid_fails (A : Type) (c : ascii) (s : string) (pv : option ascii)
    (cs : list (nat * string)) (rs : list regex) (k : pos -> option A) :
  isword c = true ->
  run (seqs (spaces :: lit "=" :: rs)) (mkpos pv (String c s) cs) k = None.
Proof.
  intro W. destruct (word_is_key c W) as (_ & Ec & Nc).
  apply negb_true_iff in Nc.
  rewrite run_seqs_cons. unfold spaces, run. cbn [rep prev rest caps].
  rewrite Nc. fold run. rewrite run_seqs_cons, run_lit_prefix.
  cbn [strip_prefix]. now rewrite Ec.
Qed.

Lemma ini_line_search (key sp1 sp2 value : string) :
  truthy key = true -> every isword key = true ->
  every isspace sp1 = true -> every isspace sp2 = true ->
  truthy value = true -> every nonspace value = true ->
  search ini_kv_re (ini_line key sp1 sp2 value)
  = Some [(2%nat, value); (1%nat, key)].
Proof.
  intros Tk Ek E1 E2 Tv Ev. apply search_at_start.
  unfold ini_line, ini_kv_re.
  rewrite run_seqs_cons.
  change (run Bol (mkpos None (key ++ sp1 ++ "=" ++ sp2 ++ value)%string [])
            (fun st' => run (seqs
               [spaces; Grp 1 (Rep false 1 ini_key_char); spaces; lit "=";
                spaces; Grp 2 (Rep false 1 dot); spaces; Eol])
               st' (fun st => Some (caps st))))
    with (run (seqs
               [spaces; Grp 1 (Rep false 1 ini_key_char); spaces; lit "=";
                spaces; Grp 2 (Rep false 1 dot); spaces; Eol])
              (mkpos None (key ++ sp1 ++ "=" ++ sp2 ++ value)%string [])
              (fun st => Some (caps st))).
  rewrite run_seqs_cons.
  destruct key as [|c kv]; [discriminate|].
  simpl in Ek. apply andb_prop in Ek. destruct Ek as [Wc Wk].
  destruct (word_is_key c Wc) as (Kc & _ & Nc).
  rewrite append_cons. unfold spaces at 1.
  apply run_rep_none; [now apply negb_true_iff in Nc|].
  rewrite run_seqs_cons, <- append_cons.
  apply (@run_grp_lazy1 _ 1 ini_key_char isword); try assumption.
  - revert Wk. apply every_weaken. intros c' W.
    now destruct (word_is_key c' W).
  - intros pv' c' s' cs' W. now apply ini_mid_fails.
  - rewrite run_seqs_cons. unfold spaces at 1.
    change (sp1 ++ "=" ++ sp2 ++ value)%string
      with (sp1 ++ String "=" (sp2 ++ value))%string.
    apply run_rep_stop; [exact E1 | lia | reflexivity |].
    rewrite run_seqs_cons.
    change (String "=" (sp2 ++ value))%string
      with ("=" ++ (sp2 ++ value))%string.
    rewrite run_lit, run_seqs_cons.
    destruct value as [|d vv]; [discriminate|].
    simpl in Ev. apply andb_prop in Ev. destruct Ev as [Nd Nv].
    unfold spaces at 1.
    apply run_rep_stop; [exact E2 | lia | now apply negb_true_iff in Nd |].
    rewrite run_seqs_cons.
    apply (@run_grp_lazy1_end _ 2 dot nonspace); try assumption.
    + unfold dot. unfold nonspace in Nd.
      destruct (Ascii.eqb_spec d LF) as [->|]; [discriminate | reflexivity].
    + revert Nv. apply every_weaken. intros c' N. unfold dot.
      unfold nonspace in N.
      destruct (Ascii.eqb_spec c' LF) as [->|]; [discriminate | reflexivity].
    + intros pv' c' s' cs' N. apply ini_tail_fails.
      now apply negb_true_iff in N.
    + reflexivity.
Qed.

Lemma ini_value_parts (v : string) :
  every ini_value v = true ->
  every nonspace v = true /\ every (chr_isnot DQ) v = true /\
  every (chr_isnot "(") v = true.
Proof.
  induction v as [|c v IH]; intro H; [repeat split|].
  simpl in H. apply andb_prop in H. destruct H as [Hc Hv].
  destruct (IH Hv) as (A1 & A2 & A3). unfold ini_value in Hc.
  repeat (apply andb_prop in Hc; destruct Hc as [Hc ?]).
  simpl. rewrite A1, A2, A3, Hc.
  repeat match goal with H : _ = true |- _ => rewrite H end.
  repeat split.
Qed.

Lemma ini_line_plain (q : ascii -> bool) (key sp1 sp2 value : string) :
  every q key = true -> every q sp1 = true -> every q sp2 = true ->
  every q value = true -> q "="%char = true ->
  every q (ini_line key sp1 sp2 value) = true.
Proof.
  intros A1 A2 A3 A4 A5. unfold ini_line.
  rewrite !every_append, A1, A2, A3, A4. simpl. now rewrite A5.
Qed.

(** X22: a line [key = value], with a key made of word characters that is
    not empty, any white space (or none) on either side of the equals sign,
    and a value that is not empty and has no white space, double quote or
    opening parenthesis, is read back as that key with that value by the
    line extractor of the diff mode, while the whole-file parser of the
    fallback stores nothing for it. *)
Theorem ini_line_read_back (key sp1 sp2 value : string) :
  truthy key = true -> every isword key = true ->
  every isspace sp1 = true -> every isspace sp2 = true ->
  truthy value = true -> every ini_value value = true ->
  extract_param_from_line (ini_line key sp1 sp2 value) = Some (key, value) /\
  _parse_params [ini_line key sp1 sp2 value] = [].
Proof.
  intros Tk Ek E1 E2 Tv Ev.
  destruct (ini_value_parts _ Ev) as (Vs & Vq & Vp).
  pose proof (@ini_line_search key sp1 sp2 value Tk Ek E1 E2 Tv Vs) as S.
  assert (Ks : every nonspace key = true).
  { revert Ek. apply every_weaken. intros c W. now destruct (word_is_key c W). }
  assert (Kp : every (chr_isnot "(") key = true).
  { revert Ek. apply every_weaken. intros c W.
    destruct (word_is_plain c W) as (_ & _ & _ & N). unfold chr_isnot.
    destruct (Ascii.eqb_spec "(" c) as [<-|]; [congruence | reflexivity]. }
  assert (Sq : forall sp, every isspace sp = true ->
                 every (chr_isnot DQ) sp = true /\
                 every (chr_isnot "(") sp = true).
  { intros sp H. split; revert H; apply every_weaken; intros c Hc;
      now destruct (space_is_plain c Hc). }
  destruct (Sq sp1 E1) as [Q1 P1]. destruct (Sq sp2 E2) as [Q2 P2].
  assert (P : search param_re (ini_line key sp1 sp2 value) = None).
  { apply no_quote_no_param.
    apply ini_line_plain; try assumption; [|reflexivity].
    now apply word_no_quote. }
  assert (R : search prop_re (ini_line key sp1 sp2 value) = None).
  { apply no_paren_no_prop. apply ini_line_plain; try assumption.
    reflexivity. }
  assert (T : truthy (ini_line key sp1 sp2 value) = true).
  { unfold ini_line. destruct key; [discriminate | reflexivity]. }
  split.
  - unfold extract_param_from_line. rewrite T, P, R, S. cbv iota. simpl negb.
    cbv iota.
    change (group_str 1 [(2%nat, value); (1%nat, key)]) with key.
    change (group_str 2 [(2%nat, value); (1%nat, key)]) with value.
    rewrite (strip_nothing _ Ks), (strip_nothing _ Vs).
    now rewrite (unquote_noquote _ Vq).
  - unfold _parse_params. simpl fold_left. unfold parse_step, parse_line.
    now rewrite P, R.
Qed.

Lemma ini_line_read_back_witness :
  extract_param_from_line (ini_line "MaxPlayers" " " " " "16")
    = Some ("MaxPlayers", "16") /\
  _parse_params [ini_line "MaxPlayers" " " " " "16"] = [].
Proof.
  apply (@ini_line_read_back "MaxPlayers" " " " " "16"); reflexivity.
Defined.

End IniFacts.

(** * JSON lines read back *)

Module JsonFacts.
Import Str Re Parsing Notions MatchFacts CallFacts IniFacts.

#[local] Open Scope list_scope.
#[local] Arguments run : simpl never.
#[local] Arguments String.append : simpl never.
#[local] Arguments Ascii.eqb : simpl never.

Lemma json_scalar_parts (v : string) :
  every json_scalar v = true ->
  every nonspace v = true /\ every dot v = true /\
  every (fun c => negb (is_char "," c)) v = true.
Proof.
  intro H. repeat split; revert H; apply every_weaken; intros c Hc;
    unfold json_scalar in Hc; apply andb_prop in Hc; destruct Hc as [Nc Cc].
  - exact Nc.
  - unfold dot, chr_isnot. unfold nonspace in Nc.
    destruct (Ascii.eqb_spec c LF) as [->|]; [discriminate | reflexivity].
  - exact Cc.
Qed.

Lemma rstrip_nothing (p : ascii -> bool) (s : string) :
  every (fun c => negb (p c)) s = true -> rstrip_by p s = s.
Proof.
  intro H. unfold rstrip_by. rewrite lstrip_nothing.
  - apply PipelineFacts.rev_rev.
  - unfold rev. now apply every_rev_acc.
Qed.

Lemma json_tail_fails (A : Type) (c : ascii) (s : string) (pv : option ascii)
    (cs : list (nat * string)) (k : pos -> option A) :
  json_scalar c = true ->
  run (seqs [spaces; opt (lit ","); spaces; Eol]) (mkpos pv (String c s) cs) k
  = None.
Proof.
  intro H. unfold json_scalar in H. apply andb_prop in H.
  destruct H as [Nc Cc]. apply negb_true_iff in Nc.
  unfold chr_isnot in Cc. apply negb_true_iff in Cc.
  unfold seqs, spaces, opt, lit, run. cbn [rep prev rest caps].
  rewrite Nc. unfold chr_is. rewrite Cc.
  destruct s as [|c' s]; [|reflexivity].
  destruct (Ascii.eqb_spec c LF) as [->|]; [discriminate | reflexivity].
Qed.

Lemma json_line_search (indent key value closing : string) :
  every isspace indent = true ->
  truthy key = true -> every (chr_isnot DQ) key = true ->
  truthy value = true -> every json_scalar value = true ->
  (forall pv cs,
     run (seqs [spaces; opt (lit ","); spaces; Eol]) (mkpos pv closing cs)
         (fun st => Some (caps st)) = Some cs) ->
  search json_kv_re (json_line indent key value closing)
  = Some [(2%nat, value); (1%nat, key)].
Proof.
  intros Ei Tk Ek Tv Ev Tail. apply search_at_start.
  destruct (json_scalar_parts _ Ev) as (Vn & Vd & _).
  unfold json_line, json_kv_re.
  rewrite run_seqs_cons.
  change (run Bol
            (mkpos None (indent ++ Q ++ key ++ Q ++ ": " ++ value ++ closing)%string [])
            (fun st' => run (seqs
               [spaces; Chr (chr_is DQ); Grp 1 (Rep true 1 (chr_isnot DQ));
                Chr (chr_is DQ); lit ":"; spaces; Grp 2 (Rep false 1 dot);
                spaces; opt (lit ","); spaces; Eol])
               st' (fun st => Some (caps st))))
    with (run (seqs
               [spaces; Chr (chr_is DQ); Grp 1 (Rep true 1 (chr_isnot DQ));
                Chr (chr_is DQ); lit ":"; spaces; Grp 2 (Rep false 1 dot);
                spaces; opt (lit ","); spaces; Eol])
              (mkpos None
                 (indent ++ String DQ (key ++ String DQ
                    (":" ++ " " ++ value ++ closing)))%string [])
              (fun st => Some (caps st))).
  rewrite run_seqs_cons. unfold spaces at 1.
  apply run_rep_stop; [exact Ei | lia | reflexivity |].
  rewrite run_seqs_cons, run_chr by apply chr_is_refl.
  rewrite run_seqs_cons.
  apply run_grp_rep_stop; [exact Ek | now apply RoundTrip.truthy_length
                           | reflexivity |].
  rewrite run_seqs_cons, run_chr by apply chr_is_refl.
  rewrite run_seqs_cons, run_lit, run_seqs_cons.
  destruct value as [|d vv]; [discriminate|].
  simpl in Vn, Vd, Ev.
  apply andb_prop in Vn. destruct Vn as [Nd Nv].
  apply andb_prop in Vd. destruct Vd as [Dd Dv].
  apply andb_prop in Ev. destruct Ev as [_ Sv].
  change (String " " (EmptyString ++ String d vv ++ closing))%string
    with (" " ++ String d (vv ++ closing))%string.
  unfold spaces at 1.
  apply run_rep_stop; [reflexivity | simpl; lia | now apply negb_true_iff in Nd |].
  rewrite run_seqs_cons, <- append_cons.
  apply (@run_grp_lazy1 _ 2 dot json_scalar); try assumption.
  - intros pv' c' s' cs' H. now apply json_tail_fails.
  - apply Tail.
Qed.

Lemma json_closing_tail (closing : string) (pv : option ascii)
    (cs : list (nat * string)) :
  closing = EmptyString \/ closing = "," ->
  run (seqs [spaces; opt (lit ","); spaces; Eol]) (mkpos pv closing cs)
      (fun st => Some (caps st)) = Some cs.
Proof.
  intros [-> | ->]; reflexivity.
Qed.

Lemma json_line_truthy (indent key value closing : string) :
  truthy (json_line indent key value closing) = true.
Proof.
  unfold json_line. destruct indent; reflexivity.
Qed.

Lemma json_line_extract (indent key value closing : string) :
  every isspace indent = true ->
  truthy key = true -> every (chr_isnot DQ) key = true ->
  truthy value = true -> every json_scalar value = true ->
  closing = EmptyString \/ closing = "," ->
  json_kv_from_line (json_line indent key value closing)
  = Some (key, unquote value).
Proof.
  intros Ei Tk Ek Tv Ev Hc. unfold json_kv_from_line.
  rewrite (json_line_search indent key value closing Ei Tk Ek Tv Ev)
    by (intros pv cs; now apply json_closing_tail).
  destruct (json_scalar_parts _ Ev) as (Vn & _ & Vc).
  change (group_str 1 [(2%nat, value); (1%nat, key)]) with key.
  change (group_str 2 [(2%nat, value); (1%nat, key)]) with value.
  rewrite (strip_nothing value Vn). unfold rstrip_comma.
  rewrite (rstrip_nothing (is_char ",") value Vc).
  now rewrite (strip_nothing value Vn).
Qed.

(** X23: in the JSON mode, a line [Q key Q: value] (Q the double quote),
    indented by white space and closed by a comma or by nothing, whose key
    is not empty and holds no double quote and whose value is not empty and
    holds neither white space nor a comma, is read as that key with that
    value less its enclosing quotes: alone on the new side it gives the
    addition of the key, alone on the old side its removal, whatever the
    line numbers. *)
Theorem json_line_read_back (indent key value closing : string)
    (old_num new_num : option Z) :
  every isspace indent = true ->
  truthy key = true -> every (chr_isnot DQ) key = true ->
  truthy value = true -> every json_scalar value = true ->
  closing = EmptyString \/ closing = "," ->
  _extract_param_changes_from_diff
    [(None, Some (json_line indent key value closing), old_num, new_num)] true
  = [(key, EmptyString, unquote value)] /\
  _extract_param_changes_from_diff
    [(Some (json_line indent key value closing), None, old_num, new_num)] true
  = [(key, unquote value, EmptyString)].
Proof.
  intros Ei Tk Ek Tv Ev Hc.
  pose proof (@json_line_extract indent key value closing Ei Tk Ek Tv Ev Hc)
    as X.
  unfold _extract_param_changes_from_diff, _extract_json_key_changes.
  simpl flat_map. unfold on_side. rewrite json_line_truthy, X.
  unfold classify. simpl named. rewrite Tk. split; reflexivity.
Qed.

Lemma json_line_read_back_witness :
  _extract_param_changes_from_diff
    [(None, Some (json_line "  " "speed" "1.5" ","), None, Some 3)] true
  = [("speed", EmptyString, "1.5")] /\
  _extract_param_changes_from_diff
    [(Some (json_line "  " "speed" "1.5" ","), None, None, Some 3)] true
  = [("speed", "1.5", EmptyString)].
Proof.
  apply (@json_line_read_back "  " "speed" "1.5" "," None (Some 3));
    solve [reflexivity | right; reflexivity].
Defined.

(** X24: in the JSON mode, the pair of two such lines with the same key
    gives the one change of that key between the two values less their
    enclosing quotes when these differ, and nothing when they are equal:
    a value that only gains or loses its enclosing quotes, or a line that
    only gains or loses its indentation or its comma, is no change. *)
Theorem json_pair_gives_change
    (indent1 indent2 key value1 value2 closing1 closing2 : string)
    (old_num new_num : option Z) :
  every isspace indent1 = true -> every isspace indent2 = true ->
  truthy key = true -> every (chr_isnot DQ) key = true ->
  truthy value1 = true -> every json_scalar value1 = true ->
  truthy value2 = true -> every json_scalar value2 = true ->
  closing1 = EmptyString \/ closing1 = "," ->
  closing2 = EmptyString \/ closing2 = "," ->
  _extract_param_changes_from_diff
    [(Some (json_line indent1 key value1 closing1),
      Some (json_line indent2 key value2 closing2), old_num, new_num)] true
  = if String.eqb (unquote value1) (unquote value2) then []
    else [(key, unquote value1, unquote value2)].
Proof.
  intros E1 E2 Tk Ek T1 V1 T2 V2 C1 C2.
  pose proof (@json_line_extract indent1 key value1 closing1 E1 Tk Ek T1 V1 C1)
    as X1.
  pose proof (@json_line_extract indent2 key value2 closing2 E2 Tk Ek T2 V2 C2)
    as X2.
  unfold _extract_param_changes_from_diff, _extract_json_key_changes.
  simpl flat_map. unfold on_side. rewrite !json_line_truthy, X1, X2.
  unfold classify. simpl named. rewrite Tk.
  simpl name_of. rewrite String.eqb_refl. simpl andb.
  simpl option_map. simpl opt_string_eqb.
  destruct (String.eqb (unquote value1) (unquote value2)); reflexivity.
Qed.

Lemma json_pair_gives_change_witness :
  _extract_param_changes_from_diff
    [(Some (json_line "  " "speed" "1.5" ","),
      Some (json_line "  " "speed" "2" EmptyString), Some 3, Some 3)] true
  = [("speed", "1.5", "2")].
Proof.
  apply (@json_pair_gives_change "  " "  " "speed" "1.5" "2" ","
           EmptyString (Some 3) (Some 3));
    solve [reflexivity | right; reflexivity | left; reflexivity].
Defined.

End JsonFacts.
